(** * samshee / ilsa2: the Illumina sample sheet v2 checks

    A shallow embedding of [src/ilsa2/samplesheetv2.py]: the OverrideCycles
    expander [parse_overrideCycles], the two document checks
    [illuminasamplesheetv2logic] and [basespacelogic], and the class
    [SampleSheetV2] (its constructor and [to_string]).

    Python strings are modelled as [string] (ASCII text), Python dicts with
    string keys as association lists in insertion order, exceptions as the
    left branch of a sum. *)

From Stdlib Require Import String Ascii List Arith ZArith Lia Bool.
From Stdlib Require Import DecimalString.
Import ListNotations.
Local Open Scope list_scope.
Local Open Scope string_scope.

(** ** Exceptions *)

Module Py.

(** The exceptions the modelled code can raise.  [Exception msg] is the
    [raise Exception(msg)] of the source; the others are raised by the
    interpreter itself. *)
Inductive exn : Type :=
| Exception (msg : string)
| KeyError (key : string)
| TypeError
| ValueError
| AttributeError.

Definition result (A : Type) : Type := (exn + A)%type.

Definition Ok {A : Type} (a : A) : result A := inr a.
Definition Err {A : Type} (e : exn) : result A := inl e.

Definition rbind {A B : Type} (r : result A) (k : A -> result B) : result B :=
  match r with
  | inl e => inl e
  | inr a => k a
  end.

End Py.
Import Py.

(** ** Strings *)

Module Str.

(** [s * n] on Python strings, for a result no longer than a string can be
    (see [Limits]): beyond that the interpreter raises an OverflowError, which
    is not modelled. *)
Fixpoint repeat_string (s : string) (n : nat) : string :=
  match n with
  | O => ""
  | S n' => s ++ repeat_string s n'
  end.

(** [s.split(sep)] for a separator of one character: never the empty list. *)
Fixpoint split (sep : ascii) (s : string) : list string :=
  match s with
  | EmptyString => [""]
  | String c s' =>
      if Ascii.eqb c sep then "" :: split sep s'
      else match split sep s' with
           | [] => [String c ""]
           | h :: t => String c h :: t
           end
  end.

(** The longest prefix of [s] whose characters satisfy [p], and the rest. *)
Fixpoint span (p : ascii -> bool) (s : string) : string * string :=
  match s with
  | EmptyString => ("", "")
  | String c s' =>
      if p c then let (a, b) := span p s' in (String c a, b)
      else ("", s)
  end.

Definition is_digit (c : ascii) : bool :=
  let n := nat_of_ascii c in ((48 <=? n)%nat && (n <=? 57)%nat)%bool.

Definition digit_value (c : ascii) : nat := nat_of_ascii c - 48.

(** The value of a run of decimal digits, most significant first. *)
Definition decimal_value (s : string) : nat :=
  fold_left (fun acc c => 10 * acc + digit_value c) (list_ascii_of_string s) 0.

(** [int(s)] for [s] a run of ASCII digits: the empty string is refused.
    The interpreter also refuses a run of more than 4300 digits; that limit is
    not modelled here, the properties that need it assume it (see [Limits]). *)
Definition int (s : string) : result nat :=
  match s with
  | EmptyString => Err ValueError
  | _ => Ok (decimal_value s)
  end.

(** [str(n)] for a non-negative [int]. *)
Definition str_of_nat (n : nat) : string := NilZero.string_of_uint (Nat.to_uint n).

(** [str(z)] for an [int]. *)
Definition str_of_Z (z : Z) : string := NilZero.string_of_int (Z.to_int z).

Definition contains_char (c : ascii) (s : string) : bool :=
  existsb (Ascii.eqb c) (list_ascii_of_string s).

(** [s.endswith(suf)]. *)
Definition endswith (s suf : string) : bool :=
  (String.length suf <=? String.length s)%nat &&
  String.eqb (substring (String.length s - String.length suf) (String.length suf) s) suf.

(** [s] without its suffix [suf], when it ends with it. *)
Definition strip_suffix (suf s : string) : option string :=
  if endswith s suf then Some (substring 0 (String.length s - String.length suf) s)
  else None.

End Str.

(** ** The OverrideCycles expander (source lines 158-184) *)

Definition is_cycle_letter (c : ascii) : bool :=
  Ascii.eqb c "N" || Ascii.eqb c "Y" || Ascii.eqb c "I" || Ascii.eqb c "U".

(** [re.findall(pt, s)] for the pattern of [expand]: a group of one or more
    letters of NYIU, a group of zero or more digits 0-9, an optional
    semicolon.  The scan restarts at the end of each match and skips a
    character where no match starts.  The three character classes are
    disjoint, so the greedy match never backtracks.  Every match consumes a
    letter, so [String.length s] steps are enough. *)
Fixpoint findall_fuel (fuel : nat) (s : string) : list (string * string) :=
  match fuel with
  | O => []
  | S fuel' =>
      match s with
      | EmptyString => []
      | String c s' =>
          if is_cycle_letter c then
            let (letters, r1) := Str.span is_cycle_letter s in
            let (digits, r2) := Str.span Str.is_digit r1 in
            let r3 := match r2 with
                      | String ";" r => r
                      | _ => r2
                      end in
            (letters, digits) :: findall_fuel fuel' r3
          else findall_fuel fuel' s'
      end
  end.

Definition findall (s : string) : list (string * string) :=
  findall_fuel (String.length s) s.

(** The loop of [expand]: [res += letter * int(freq)] for each match. *)
Fixpoint expand_matches (matches : list (string * string)) (res : string) : result string :=
  match matches with
  | [] => Ok res
  | (letter, freq) :: rest =>
      rbind (Str.int freq) (fun n =>
      expand_matches rest (res ++ Str.repeat_string letter n))
  end.

Definition expand (short : string) : result string :=
  expand_matches (findall short) "".

(** A Python dict with string keys, in insertion order. *)
Definition dict (V : Type) : Type := list (string * V).

Fixpoint lookup {V : Type} (k : string) (d : dict V) : option V :=
  match d with
  | [] => None
  | (k', v) :: d' => if String.eqb k k' then Some v else lookup k d'
  end.

Definition has_key {V : Type} (k : string) (d : dict V) : bool :=
  match lookup k d with
  | Some _ => true
  | None => false
  end.

Definition keys {V : Type} (d : dict V) : list string := map fst d.

Definition parse_overrideCycles (cyclestr : string) : result (dict string) :=
  let cycles := Str.split ";" cyclestr in
  if (length cycles <? 1)%nat then
    Err (Exception ("OverrideCycles " ++ cyclestr ++ " cannot be parsed to a cycle sequence."))
  else
    rbind (expand (nth 0 cycles "")) (fun e0 =>
    let res := [("Read1Cycles", e0)] in
    if (length cycles =? 2)%nat then
      rbind (expand (nth 1 cycles "")) (fun e1 =>
      Ok (res ++ [("Read2Cycles", e1)])%list)
    else if (length cycles =? 3)%nat then
      rbind (expand (nth 1 cycles "")) (fun e1 =>
      rbind (expand (nth 2 cycles "")) (fun e2 =>
      Ok (res ++ [("Index1Cycles", e1); ("Read2Cycles", e2)])%list))
    else if (length cycles =? 4)%nat then
      rbind (expand (nth 1 cycles "")) (fun e1 =>
      rbind (expand (nth 2 cycles "")) (fun e2 =>
      rbind (expand (nth 3 cycles "")) (fun e3 =>
      Ok (res ++ [("Index1Cycles", e1); ("Index2Cycles", e2); ("Read2Cycles", e3)])%list)))
    else if (length cycles =? 1)%nat then
      Ok res
    else
      Err (Exception ("OverrideCycles " ++ cyclestr ++ " defines too many elements."))).

(** ** The sectioned document *)

(** A cell of a section: the reader of the sheet yields integers and text. *)
Inductive value : Type :=
| VInt (z : Z)
| VStr (s : string).

Definition value_eqb (a b : value) : bool :=
  match a, b with
  | VInt x, VInt y => Z.eqb x y
  | VStr x, VStr y => String.eqb x y
  | _, _ => false
  end.

(** [str(v)], as an f-string formats it. *)
Definition str (v : value) : string :=
  match v with
  | VInt z => Str.str_of_Z z
  | VStr s => s
  end.

(** [len(v)]: defined on text only. *)
Definition len (v : value) : result nat :=
  match v with
  | VInt _ => Err TypeError
  | VStr s => Ok (String.length s)
  end.

(** [a + b]: concatenation of text, sum of integers. *)
Definition add (a b : value) : result value :=
  match a, b with
  | VStr x, VStr y => Ok (VStr (x ++ y))
  | VInt x, VInt y => Ok (VInt (x + y))
  | _, _ => Err TypeError
  end.

Definition row : Type := dict value.

(** The content of a section: a flat mapping or a sequence of rows. *)
Inductive section : Type :=
| Settings (kv : dict value)
| Data (rows : list row).

Definition SectionedSheet : Type := dict section.

(** [k in sec]: a key of the mapping; a list of rows holds no string. *)
Definition sec_contains (k : string) (sec : section) : bool :=
  match sec with
  | Settings kv => has_key k kv
  | Data _ => false
  end.

(** [sec[k]] for a string [k]. *)
Definition sec_getitem (k : string) (sec : section) : result value :=
  match sec with
  | Settings kv =>
      match lookup k kv with
      | Some v => Ok v
      | None => Err (KeyError k)
      end
  | Data _ => Err TypeError
  end.

(** [len(sec)]. *)
Definition sec_len (sec : section) : nat :=
  match sec with
  | Settings kv => length kv
  | Data rows => length rows
  end.

(** [sec[0]]: the first row of a list; a mapping has no key [0]. *)
Definition sec_first (sec : section) : result row :=
  match sec with
  | Settings _ => Err (KeyError "0")
  | Data [] => Err (Exception "list index out of range")
  | Data (r :: _) => Ok r
  end.

(** [r[k]] on a row. *)
Definition row_getitem (k : string) (r : row) : result value :=
  match lookup k r with
  | Some v => Ok v
  | None => Err (KeyError k)
  end.

(** [[i[k] for i in sec]]: iterating a mapping yields its keys, which are
    strings and cannot be indexed by [k]. *)
Fixpoint column_rows (k : string) (rows : list row) : result (list value) :=
  match rows with
  | [] => Ok []
  | r :: rest =>
      rbind (row_getitem k r) (fun v =>
      rbind (column_rows k rest) (fun vs => Ok (v :: vs)))
  end.

Definition column (k : string) (sec : section) : result (list value) :=
  match sec with
  | Data rows => column_rows k rows
  | Settings [] => Ok []
  | Settings (_ :: _) => Err TypeError
  end.

(** [[i1 + i2 for i1, i2 in zip(l1, l2)]]. *)
Fixpoint zip_add (l1 l2 : list value) : result (list value) :=
  match l1, l2 with
  | a :: l1', b :: l2' =>
      rbind (add a b) (fun c =>
      rbind (zip_add l1' l2') (fun cs => Ok (c :: cs)))
  | _, _ => Ok []
  end.

(** [set(l)], as far as its size goes: one element per class of equal values. *)
Fixpoint dedup (l : list value) : list value :=
  match l with
  | [] => []
  | v :: l' => if existsb (value_eqb v) l' then dedup l' else v :: dedup l'
  end.

(** ** The monad of the checks: exceptions over the document as state *)

Definition M (A : Type) : Type := SectionedSheet -> result A * SectionedSheet.

Definition ret {A : Type} (a : A) : M A := fun doc => (Ok a, doc).

Definition raise {A : Type} (e : exn) : M A := fun doc => (Err e, doc).

Definition bind {A B : Type} (m : M A) (k : A -> M B) : M B :=
  fun doc =>
    match m doc with
    | (inl e, doc') => (inl e, doc')
    | (inr a, doc') => k a doc'
    end.

Definition lift {A : Type} (r : result A) : M A := fun doc => (r, doc).

Declare Scope monad_scope.
Delimit Scope monad_scope with monad.
Notation "x <- m ;; k" := (bind m (fun x => k))
  (at level 61, m at next level, right associativity) : monad_scope.
Notation "m ;; k" := (bind m (fun _ => k))
  (at level 61, right associativity) : monad_scope.
Local Open Scope monad_scope.

(** [k in doc]. *)
Definition doc_contains (k : string) : M bool :=
  fun doc => (Ok (has_key k doc), doc).

(** [doc[k]]. *)
Definition doc_getitem (k : string) : M section :=
  fun doc =>
    (match lookup k doc with
     | Some sec => Ok sec
     | None => Err (KeyError k)
     end, doc).

(** [doc.keys()]. *)
Definition doc_keys : M (list string) :=
  fun doc => (Ok (keys doc), doc).

(** [for x in l: body(x)]. *)
Fixpoint for_each {A : Type} (l : list A) (body : A -> M unit) : M unit :=
  match l with
  | [] => ret tt
  | x :: l' => body x ;; for_each l' body
  end.

(** [if c: body], nothing otherwise. *)
Definition when (c : bool) (body : M unit) : M unit :=
  if c then body else ret tt.

(** ** illuminasamplesheetv2logic (source lines 187-233) *)

(** [v != n] for a cell [v] and an [int] [n]: text never equals a number. *)
Definition differs_from_nat (v : value) (n : nat) : bool :=
  match v with
  | VInt z => negb (Z.eqb z (Z.of_nat n))
  | VStr _ => true
  end.

(** [parse_overrideCycles] applied to a cell: [split] is a method of text. *)
Definition parse_overrideCycles_value (v : value) : result (dict string) :=
  match v with
  | VStr s => parse_overrideCycles s
  | VInt _ => Err AttributeError
  end.

(** [[i for i in l if i in doc.keys()]]. *)
Fixpoint declared_in_doc (l : list string) : M (list string) :=
  match l with
  | [] => ret []
  | i :: l' =>
      ks <- doc_keys ;;
      rest <- declared_in_doc l' ;;
      ret (if existsb (String.eqb i) ks then i :: rest else rest)
  end.

(** Lines 195-204. *)
Definition override_cycles_rule : M unit :=
  bs <- doc_getitem "BCLConvert_Settings" ;;
  when (sec_contains "OverrideCycles" bs)
    (bs <- doc_getitem "BCLConvert_Settings" ;;
     oc <- lift (sec_getitem "OverrideCycles" bs) ;;
     cycles <- lift (parse_overrideCycles_value oc) ;;
     for_each cycles (fun '(elemname, elemseq) =>
       reads <- doc_getitem "Reads" ;;
       if negb (sec_contains elemname reads) then
         raise (Exception ("BCLConvert_Settings.OverrideCycles defines " ++ elemname
                           ++ ", but it is not specified in the Reads section"))
       else
         reads <- doc_getitem "Reads" ;;
         declared <- lift (sec_getitem elemname reads) ;;
         when (differs_from_nat declared (String.length elemseq))
           (raise (Exception ("Reads." ++ elemname ++ " is " ++ str declared
                              ++ ", but BCLConvert_Settings.OverrideCycles specifies a length of "
                              ++ Str.str_of_nat (String.length elemseq))))) ;;
     names <- declared_in_doc ["Read1Cycles"; "Read2Cycles"; "Index1Cycles"; "Index2Cycles"] ;;
     for_each names (fun elemname =>
       when (negb (has_key elemname cycles))
         (raise (Exception ("Reads defines " ++ elemname
                            ++ ", but BCLConvert_Settings.OverrideCycles is incompatible with it."))))).

(** Lines 205-207. *)
Definition adapter_read1_rule : M unit :=
  bs <- doc_getitem "BCLConvert_Settings" ;;
  when (sec_contains "AdapterRead1" bs)
    (bs <- doc_getitem "BCLConvert_Settings" ;;
     adapter <- lift (sec_getitem "AdapterRead1" bs) ;;
     la <- lift (len adapter) ;;
     reads <- doc_getitem "Reads" ;;
     cycles <- lift (sec_getitem "Read1Cycles" reads) ;;
     lc <- lift (len cycles) ;;
     when (lc <? la)%nat
       (raise (Exception "BCLConvert_Settings.AdapterRead1 is longer then Reads.Read1Cycles"))).

(** Lines 208-212. *)
Definition adapter_read2_rule : M unit :=
  bs <- doc_getitem "BCLConvert_Settings" ;;
  when (sec_contains "AdapterRead2" bs)
    (reads <- doc_getitem "Reads" ;;
     if negb (sec_contains "Read2Cycles" reads) then
       raise (Exception "AdapterRead2 defined in BCLConvert_Settings, but no Read2Cycles entry in Reads")
     else
       bs <- doc_getitem "BCLConvert_Settings" ;;
       adapter <- lift (sec_getitem "AdapterRead2" bs) ;;
       la <- lift (len adapter) ;;
       reads <- doc_getitem "Reads" ;;
       cycles <- lift (sec_getitem "Read2Cycles" reads) ;;
       lc <- lift (len cycles) ;;
       when (lc <? la)%nat
         (raise (Exception "BCLConvert_Settings.AdapterRead2 is longer then Reads.Read2Cycles"))).

(** Lines 215-220, for [n] either 1 or 2. *)
Definition barcode_mismatches_rule (n : string) : M unit :=
  bs <- doc_getitem "BCLConvert_Settings" ;;
  when (sec_contains ("BarcodeMismatchesIndex" ++ n) bs)
    (reads <- doc_getitem "Reads" ;;
     when (negb (sec_contains ("Index" ++ n ++ "Cycles") reads))
       (raise (Exception ("BCLConvert_Settings defines BarcodeMismatches" ++ n
                          ++ ", but no Index" ++ n ++ "Cycles defined in Reads.")))).

(** Lines 194-220: the body under [if 'BCLConvert_Settings' in doc]. *)
Definition bclconvert_settings_rules : M unit :=
  present <- doc_contains "BCLConvert_Settings" ;;
  when present
    (override_cycles_rule ;;
     adapter_read1_rule ;;
     adapter_read2_rule ;;
     barcode_mismatches_rule "1" ;;
     barcode_mismatches_rule "2").

(** Lines 221-233: the body under [if 'BCLConvert_Data' in doc]. *)
Definition bclconvert_data_rules : M unit :=
  present <- doc_contains "BCLConvert_Data" ;;
  when present
    (bd <- doc_getitem "BCLConvert_Data" ;;
     when (1 <? sec_len bd)%nat
       (bd <- doc_getitem "BCLConvert_Data" ;;
        first <- lift (sec_first bd) ;;
        if negb (has_key "Index" first) then
          raise (Exception "No Index found in BCLConvert_Data, although it contains more than one sample")
        else
          bd <- doc_getitem "BCLConvert_Data" ;;
          index1 <- lift (column "Index" bd) ;;
          bd <- doc_getitem "BCLConvert_Data" ;;
          first <- lift (sec_first bd) ;;
          index <- (if has_key "Index2" first then
                      bd <- doc_getitem "BCLConvert_Data" ;;
                      index2 <- lift (column "Index2" bd) ;;
                      lift (zip_add index1 index2)
                    else ret index1) ;;
          when (negb (length (dedup index) =? length index)%nat)
            (raise (Exception "Indices are not unique.")))).

Definition illuminasamplesheetv2logic : M unit :=
  bclconvert_settings_rules ;;
  bclconvert_data_rules.

(** ** basespacelogic (source lines 235-244) *)

Definition basespacelogic : M unit :=
  has_cloud <- doc_contains "Cloud_Data" ;;
  if negb has_cloud then raise (Exception "no Cloud_Data section")
  else
    has_bcl <- doc_contains "BCLConvert_Data" ;;
    if negb has_bcl then raise (Exception "no BCLConvert_Data section")
    else
      cd <- doc_getitem "Cloud_Data" ;;
      cloud_sample_ids <- lift (column "Sample_ID" cd) ;;
      bd <- doc_getitem "BCLConvert_Data" ;;
      bclconvert_sample_ids <- lift (column "Sample_ID" bd) ;;
      for_each bclconvert_sample_ids (fun convert_id =>
        when (negb (existsb (value_eqb convert_id) cloud_sample_ids))
          (raise (Exception ("Sample_ID " ++ str convert_id
                             ++ " is defined in the BCLConvert_Data section, but not in the Cloud_Data section.")))).

(** ** The class SampleSheetV2 (source lines 270-323) *)

Module SampleSheetV2.

#[local] Set Warnings "-register-all".

(** An application's dict: the keys ['settings'] and ['data'], each optional. *)
Record application : Type := {
  settings : option section;
  data : option section
}.

(** The name of an application: [secname] yields a string or [None]. *)
Definition appname : Type := option string.

Definition appname_eqb (a b : appname) : bool :=
  match a, b with
  | None, None => true
  | Some x, Some y => String.eqb x y
  | _, _ => false
  end.

(** The attributes of an instance: [applications] is always set, [header] and
    [reads] only when the document has the section. *)
Record sheet : Type := {
  applications : list (appname * application);
  header : option section;
  reads : option section
}.

(** [self.__dict__.keys()]. *)
Definition attributes (self : sheet) : list string :=
  (["applications"]
   ++ (match header self with Some _ => ["header"] | None => [] end)
   ++ (match reads self with Some _ => ["reads"] | None => [] end))%list.

(** [secname] (lines 285-290): [re.match] of a greedy run of characters other
    than the newline, an underscore, [Settings] or [Data], and the end of the
    string, where the end may stand before one last newline. *)
Definition secname (k : string) : appname :=
  let nl := ascii_of_nat 10 in
  let k' := match Str.strip_suffix (String nl "") k with
            | Some s => s
            | None => k
            end in
  let stem := match Str.strip_suffix "_Settings" k' with
              | Some p => Some p
              | None => Str.strip_suffix "_Data" k'
              end in
  match stem with
  | Some p => if Str.contains_char nl p then None else Some p
  | None => None
  end.

(** [if name not in apps: apps[name] = dict()] and then [apps[name][field] = v],
    where [set] stores the field: a new application goes to the end, an old one
    keeps its place. *)
Fixpoint update_application (name : appname) (set : application -> application)
    (apps : list (appname * application)) : list (appname * application) :=
  match apps with
  | [] => [(name, set {| settings := None; data := None |})]
  | (n, a) :: rest =>
      if appname_eqb name n then (n, set a) :: rest
      else (n, a) :: update_application name set rest
  end.

(** The instance when the loop of line 293 starts: [applications] is the
    empty OrderedDict of line 292, the other attributes are not set. *)
Definition new_sheet : sheet := {| applications := []; header := None; reads := None |}.

(** One turn of the loop of lines 293-306. *)
Definition group_section (self : sheet) (key : string) : M sheet :=
  let sectionname := secname key in
  if Str.endswith key "_Settings" then
    sec <- doc_getitem key ;;
    ret {| applications :=
             update_application sectionname
               (fun a => {| settings := Some sec; data := data a |})
               (applications self);
           header := header self;
           reads := reads self |}
  else if Str.endswith key "_Data" then
    sec <- doc_getitem key ;;
    ret {| applications :=
             update_application sectionname
               (fun a => {| settings := settings a; data := Some sec |})
               (applications self);
           header := header self;
           reads := reads self |}
  else if String.eqb key "Header" then
    sec <- doc_getitem "Header" ;;
    ret {| applications := applications self; header := Some sec; reads := reads self |}
  else if String.eqb key "Reads" then
    sec <- doc_getitem "Reads" ;;
    ret {| applications := applications self; header := header self; reads := Some sec |}
  else ret self.

Fixpoint group_sections (ks : list string) (self : sheet) : M sheet :=
  match ks with
  | [] => ret self
  | key :: ks' => self' <- group_section self key ;; group_sections ks' self'
  end.

Section Class.

(** What the constructor and the renderer take from outside this file: the
    schema dicts with [jsonschema.validate], and the two renderers of
    [ilsa2.sectionedsheet]. *)
Variable schema : Type.
Variable validate : schema -> M unit.
Variable settings_to_string : section -> string.
Variable data_to_string : section -> string.

(** The objects the [validation] argument may hold. *)
Inductive pyobj : Type :=
| PyNone
| PyList (items : list pyobj)
| PyDict (s : schema)
| PyFunction (f : M unit)
| PyOther.

(** The body of the loop of lines 279-283: a dict goes to [validate], a
    function is called, anything else is passed over. *)
Definition run_validator (v : pyobj) : M unit :=
  match v with
  | PyDict s => validate s
  | PyFunction f => f
  | _ => ret tt
  end.

(** Lines 272-283.  Under [validation is None] only the unused local
    [schemata] is assigned, so the loop iterates over [None]. *)
Definition run_validation (validation : pyobj) : M unit :=
  match validation with
  | PyNone => raise TypeError
  | PyList items => for_each items run_validator
  | other => for_each [other] run_validator
  end.

Definition __init__ (validation : pyobj) : M sheet :=
  run_validation validation ;;
  ks <- doc_keys ;;
  group_sections ks new_sheet.

(** The name as the f-string prints it. *)
Definition str_appname (n : appname) : string :=
  match n with
  | Some s => s
  | None => "None"
  end.

Definition nl : string := String (ascii_of_nat 10) "".

(** One turn of the loop of lines 316-322. *)
Definition application_to_string (res : string) (entry : appname * application) : string :=
  let (name, app) := entry in
  let res := match settings app with
             | Some s => res ++ ("[" ++ str_appname name ++ "_Settings]" ++ nl) ++ settings_to_string s
             | None => res
             end in
  match data app with
  | Some d => res ++ ("[" ++ str_appname name ++ "_Data]" ++ nl) ++ data_to_string d
  | None => res
  end.

(** Lines 308-323.  The attribute set by the constructor is [reads]; the
    test of line 313 looks for [Reads]. *)
Definition to_string (self : sheet) : string :=
  let res := "" in
  let res := if existsb (String.eqb "header") (attributes self) then
               match header self with
               | Some h => res ++ ("[Header]" ++ nl) ++ settings_to_string h
               | None => res
               end
             else res in
  let res := if existsb (String.eqb "Reads") (attributes self) then
               match reads self with
               | Some r => res ++ ("[Reads]" ++ nl) ++ settings_to_string r
               | None => res
               end
             else res in
  fold_left application_to_string (applications self) res.

End Class.

Arguments PyNone {schema}.
Arguments PyList {schema} items.
Arguments PyDict {schema} s.
Arguments PyFunction {schema} f.
Arguments PyOther {schema}.

End SampleSheetV2.

(** ** The OverrideCycles grammar of the specification

    A cycle string is [SEGMENT (';' SEGMENT)*]; a segment is one or more
    pairs of a letter of NYIU and a non-empty run of decimal digits.  The
    parse tree of a conforming string is a non-empty list of segments, each a
    non-empty list of such pairs. *)

Module Grammar.

Definition pair : Type := (ascii * string)%type.
Definition segment : Type := list pair.

Definition all_digits (d : string) : bool :=
  forallb Str.is_digit (list_ascii_of_string d).

Definition conforming_pair (p : pair) : bool :=
  let (l, d) := p in
  is_cycle_letter l && negb (String.eqb d "") && all_digits d.

Definition conforming_segment (seg : segment) : bool :=
  match seg with
  | [] => false
  | _ => forallb conforming_pair seg
  end.

Definition conforming (segs : list segment) : bool :=
  match segs with
  | [] => false
  | _ => forallb conforming_segment segs
  end.

(** The text of a parse tree. *)
Fixpoint render_segment (seg : segment) : string :=
  match seg with
  | [] => ""
  | (l, d) :: rest => String l (d ++ render_segment rest)
  end.

Fixpoint join (sep : ascii) (l : list string) : string :=
  match l with
  | [] => ""
  | [x] => x
  | x :: rest => x ++ String sep (join sep rest)
  end.

Definition render (segs : list segment) : string :=
  join ";" (map render_segment segs).

(** A string conforms when it is the text of a conforming parse tree. *)
Definition conforms (s : string) : Prop :=
  exists segs, conforming segs = true /\ s = render segs.

(** Each letter repeated by its digit count, the runs concatenated. *)
Fixpoint expand_segment (seg : segment) : string :=
  match seg with
  | [] => ""
  | (l, d) :: rest =>
      Str.repeat_string (String l "") (Str.decimal_value d) ++ expand_segment rest
  end.

(** The names of the segments, by position, for each segment count. *)
Definition segment_names (count : nat) : list string :=
  match count with
  | 1 => ["Read1Cycles"]
  | 2 => ["Read1Cycles"; "Read2Cycles"]
  | 3 => ["Read1Cycles"; "Index1Cycles"; "Read2Cycles"]
  | 4 => ["Read1Cycles"; "Index1Cycles"; "Index2Cycles"; "Read2Cycles"]
  | _ => []
  end.

Definition expansion (segs : list segment) : dict string :=
  combine (segment_names (length segs)) (map expand_segment segs).

End Grammar.

(** ** The limits of the interpreter

    [Str.int] and [Str.repeat_string] are the interpreter's [int] and [*]
    as long as two limits are kept: [int] raises a ValueError on a run of
    more than 4300 digits (the default of sys.int_max_str_digits), and a
    repetition or a concatenation raises an OverflowError when the count or
    the length of the result exceeds the largest index (sys.maxsize, here
    2^63 - 1).  Inside the limits the model and the code agree, the memory
    for the result being taken as given; what is stated of the code's
    returning a result is stated inside them. *)

Module Limits.

Definition max_str_digits : nat := 4300.

Definition max_index : N := (2 ^ 63 - 1)%N.

(** The value of a run of decimal digits as a binary number, so that the
    limit can be tested on counts of any size. *)
Definition decimal_value_N (s : string) : N :=
  fold_left (fun acc c => (10 * acc + N.of_nat (Str.digit_value c))%N)
            (list_ascii_of_string s) 0%N.

(** The length of the text that [expand_matches] builds from [matches]. *)
Definition expanded_length (matches : list (string * string)) : N :=
  fold_right (fun m acc =>
                (N.of_nat (String.length (fst m)) * decimal_value_N (snd m) + acc)%N)
             0%N matches.

(** The matches of one call of [expand] keep the limits: no digit run is
    longer than [int] accepts, and the expansion is no longer than a string
    can be (so every count fits an index as well). *)
Definition matches_within (matches : list (string * string)) : bool :=
  forallb (fun m => (String.length (snd m) <=? max_str_digits)%nat) matches
  && (expanded_length matches <=? max_index)%N.

(** A segment, as text, keeps the limits. *)
Definition text_within (short : string) : bool :=
  matches_within (findall short).

(** Every segment of a cycle string keeps the limits. *)
Definition cycle_string_within (cyclestr : string) : bool :=
  forallb text_within (Str.split ";" cyclestr).

(** A segment, as a parse tree, keeps the limits. *)
Definition segment_within (seg : Grammar.segment) : bool :=
  matches_within (map (fun p : Grammar.pair => (String (fst p) "", snd p)) seg).

End Limits.

(** ** The composite index key of the specification *)

(** [Index] concatenated with [Index2] when the row has an [Index2], else
    [Index] alone; undefined when the row has no textual [Index]. *)
Definition composite_key (r : row) : option string :=
  match lookup "Index" r with
  | Some (VStr i) =>
      match lookup "Index2" r with
      | None => Some i
      | Some (VStr i2) => Some (i ++ i2)
      | Some (VInt _) => None
      end
  | _ => None
  end.

(** A check that leaves the document as it found it. *)
Definition readonly {A : Type} (m : M A) : Prop :=
  forall doc, snd (m doc) = doc.

(** ** Example documents *)

Module Examples.

(** Reads declares two reads, OverrideCycles describes one. *)
Definition reads_not_covered : SectionedSheet :=
  [("Reads", Settings [("Read1Cycles", VInt 150); ("Read2Cycles", VInt 150)]);
   ("BCLConvert_Settings", Settings [("OverrideCycles", VStr "Y150")])].

(** An adapter of 4 bases for a read of 151 cycles. *)
Definition short_adapter : SectionedSheet :=
  [("Reads", Settings [("Read1Cycles", VInt 151)]);
   ("BCLConvert_Settings", Settings [("AdapterRead1", VStr "ACGT")])].

(** Two samples with the same Index, the second with an Index2 as well. *)
Definition mixed_rows : SectionedSheet :=
  [("BCLConvert_Data",
    Data [[("Sample_ID", VStr "s1"); ("Index", VStr "A")];
          [("Sample_ID", VStr "s2"); ("Index", VStr "A"); ("Index2", VStr "C")]])].

(** Two samples with distinct pairs of indices. *)
Definition distinct_rows : SectionedSheet :=
  [("BCLConvert_Data",
    Data [[("Sample_ID", VStr "s1"); ("Index", VStr "A"); ("Index2", VStr "C")];
          [("Sample_ID", VStr "s2"); ("Index", VStr "A"); ("Index2", VStr "G")]])].

(** A header and a Reads section, nothing else. *)
Definition header_and_reads : SectionedSheet :=
  [("Header", Settings [("FileFormatVersion", VInt 2)]);
   ("Reads", Settings [("Read1Cycles", VInt 151)])].

(** Every demultiplexed sample is known to the cloud section, which has one more. *)
Definition cloud_superset : SectionedSheet :=
  [("Cloud_Data", Data [[("Sample_ID", VStr "s1")]; [("Sample_ID", VStr "s2")]]);
   ("BCLConvert_Data", Data [[("Sample_ID", VStr "s1")]])].

End Examples.

(** ** Vocabulary of the further properties *)

(** Text made of the four cycle letters only. *)
Definition cycle_letters_only (s : string) : bool :=
  forallb is_cycle_letter (list_ascii_of_string s).

(** The cycles a segment asks for: the sum of its digit counts. *)
Definition segment_cycles (seg : Grammar.segment) : nat :=
  list_sum (map (fun p : Grammar.pair => Str.decimal_value (snd p)) seg).

(** [apps.get(name)] on the applications of a sheet. *)
Fixpoint find_application (name : SampleSheetV2.appname)
    (apps : list (SampleSheetV2.appname * SampleSheetV2.application))
    : option SampleSheetV2.application :=
  match apps with
  | [] => None
  | (n, a) :: rest =>
      if SampleSheetV2.appname_eqb name n then Some a else find_application name rest
  end.

(** The settings and the data a sheet holds for the application [name]. *)
Definition application_settings (name : string) (self : SampleSheetV2.sheet)
    : option section :=
  match find_application (Some name) (SampleSheetV2.applications self) with
  | Some a => SampleSheetV2.settings a
  | None => None
  end.

Definition application_data (name : string) (self : SampleSheetV2.sheet)
    : option section :=
  match find_application (Some name) (SampleSheetV2.applications self) with
  | Some a => SampleSheetV2.data a
  | None => None
  end.

(** The section names that the grouping loop routes to an application. *)
Definition is_application_key (key : string) : bool :=
  Str.endswith key "_Settings" || Str.endswith key "_Data".

(** The names of [l] in the order of their first occurrence, those of [seen]
    left out. *)
Fixpoint first_seen (seen l : list SampleSheetV2.appname) : list SampleSheetV2.appname :=
  match l with
  | [] => []
  | n :: l' =>
      if existsb (SampleSheetV2.appname_eqb n) seen then first_seen seen l'
      else n :: first_seen (n :: seen) l'
  end.

(** The entries of a validation list that the constructor acts on. *)
Definition is_check {schema : Type} (v : SampleSheetV2.pyobj schema) : bool :=
  match v with
  | SampleSheetV2.PyDict _ | SampleSheetV2.PyFunction _ => true
  | _ => false
  end.

(** A document on which the check passes with an OverrideCycles of three
    segments. *)
Definition consistent_cycles : SectionedSheet :=
  [("Reads", Settings [("Read1Cycles", VInt 3); ("Index1Cycles", VInt 2);
                       ("Read2Cycles", VInt 3)]);
   ("BCLConvert_Settings",
    Settings [("OverrideCycles", VStr "Y3;I2;Y3"); ("BarcodeMismatchesIndex1", VInt 1)])].

(** The six sections of a demultiplexed run sent to the cloud. *)
Definition six_sections : SectionedSheet :=
  [("Header", Settings [("FileFormatVersion", VInt 2)]);
   ("Reads", Settings [("Read1Cycles", VInt 151)]);
   ("BCLConvert_Settings", Settings [("SoftwareVersion", VStr "4.1.7")]);
   ("BCLConvert_Data", Data [[("Sample_ID", VStr "s1")]]);
   ("Cloud_Settings", Settings [("GeneratedVersion", VStr "1.0")]);
   ("Cloud_Data", Data [[("Sample_ID", VStr "s1")]])].

(** An AdapterRead2 on a single-read run. *)
Definition adapter2_single_read : SectionedSheet :=
  [("Reads", Settings [("Read1Cycles", VInt 151)]);
   ("BCLConvert_Settings", Settings [("AdapterRead2", VStr "ACGT")])].

(** Two samples, the first without an Index. *)
Definition first_row_without_index : SectionedSheet :=
  [("BCLConvert_Data",
    Data [[("Sample_ID", VStr "s1")];
          [("Sample_ID", VStr "s2"); ("Index", VStr "A")]])].

(** Two samples with the same Index on different lanes. *)
Definition same_index_two_lanes : SectionedSheet :=
  [("BCLConvert_Data",
    Data [[("Lane", VInt 1); ("Sample_ID", VStr "s1"); ("Index", VStr "A")];
          [("Lane", VInt 2); ("Sample_ID", VStr "s2"); ("Index", VStr "A")]])].

(** The same two indices with nothing else in the rows. *)
Definition same_index_bare : SectionedSheet :=
  [("BCLConvert_Data", Data [[("Index", VStr "A")]; [("Index", VStr "A")]])].

(** Three demultiplexed samples, of which the cloud section knows the first. *)
Definition two_unknown_samples : SectionedSheet :=
  [("Cloud_Data", Data [[("Sample_ID", VStr "s1")]]);
   ("BCLConvert_Data",
    Data [[("Sample_ID", VStr "s1")]; [("Sample_ID", VStr "s2")];
          [("Sample_ID", VStr "s3")]])].

(** A cloud row without a Sample_ID. *)
Definition cloud_row_without_id : SectionedSheet :=
  [("Cloud_Data", Data [[("Sample_ID", VStr "s1")]; [("ProjectName", VStr "p")]]);
   ("BCLConvert_Data", Data [[("Sample_ID", VStr "s1")]])].

(** * Properties *)

(** ** Strings *)

Lemma append_assoc (a b c : string) : (a ++ b) ++ c = a ++ b ++ c.
Proof.
  induction a as [|x a IH]; simpl; [reflexivity | now rewrite IH].
Qed.

Lemma append_nil_r (a : string) : a ++ "" = a.
Proof.
  induction a as [|x a IH]; simpl; [reflexivity | now rewrite IH].
Qed.

Lemma length_append (a b : string) :
  String.length (a ++ b) = String.length a + String.length b.
Proof.
  induction a as [|x a IH]; simpl; [reflexivity | now rewrite IH].
Qed.

(** [split] on a string without the separator, and across one separator. *)
Lemma split_no_sep (sep : ascii) (s : string) :
  Str.contains_char sep s = false -> Str.split sep s = [s].
Proof.
  induction s as [|c s IH]; simpl; intros H; [reflexivity|].
  unfold Str.contains_char in *. simpl in H.
  apply orb_false_iff in H. destruct H as [Hc Hs].
  rewrite Ascii.eqb_sym, Hc. now rewrite (IH Hs).
Qed.

Lemma split_app_sep (sep : ascii) (s t : string) :
  Str.contains_char sep s = false ->
  Str.split sep (s ++ String sep t) = s :: Str.split sep t.
Proof.
  induction s as [|c s IH]; simpl; intros H.
  - now rewrite Ascii.eqb_refl.
  - unfold Str.contains_char in *. simpl in H.
    apply orb_false_iff in H. destruct H as [Hc Hs].
    rewrite Ascii.eqb_sym, Hc. now rewrite (IH Hs).
Qed.

Lemma contains_char_append (c : ascii) (a b : string) :
  Str.contains_char c (a ++ b) = Str.contains_char c a || Str.contains_char c b.
Proof.
  unfold Str.contains_char.
  induction a as [|x a IH]; simpl; [reflexivity|].
  now rewrite IH, orb_assoc.
Qed.

Lemma span_append (p : ascii -> bool) (d r : string) :
  forallb p (list_ascii_of_string d) = true ->
  match r with
  | EmptyString => True
  | String c _ => p c = false
  end ->
  Str.span p (d ++ r) = (d, r).
Proof.
  intros Hd Hr. induction d as [|x d IH]; simpl in *.
  - destruct r as [|c r]; simpl; [reflexivity | now rewrite Hr].
  - apply andb_true_iff in Hd. destruct Hd as [Hx Hd].
    now rewrite Hx, (IH Hd).
Qed.

(** ** The character classes of the pattern are disjoint *)

Lemma cycle_letter_cases (c : ascii) :
  is_cycle_letter c = true ->
  c = "N"%char \/ c = "Y"%char \/ c = "I"%char \/ c = "U"%char.
Proof.
  unfold is_cycle_letter. intros H.
  repeat (apply orb_true_iff in H; destruct H as [H|H]);
    apply Ascii.eqb_eq in H; auto.
Qed.

Lemma cycle_letter_not_digit (c : ascii) :
  is_cycle_letter c = true -> Str.is_digit c = false.
Proof.
  intros H. destruct (cycle_letter_cases c H) as [E|[E|[E|E]]]; subst; reflexivity.
Qed.

Lemma digit_not_cycle_letter (c : ascii) :
  Str.is_digit c = true -> is_cycle_letter c = false.
Proof.
  intros H. destruct (is_cycle_letter c) eqn:E; [|reflexivity].
  apply cycle_letter_not_digit in E. congruence.
Qed.

Lemma cycle_letter_not_semicolon (c : ascii) :
  is_cycle_letter c = true -> Ascii.eqb ";" c = false.
Proof.
  intros H. destruct (cycle_letter_cases c H) as [E|[E|[E|E]]]; subst; reflexivity.
Qed.

Lemma digit_not_semicolon (c : ascii) :
  Str.is_digit c = true -> Ascii.eqb ";" c = false.
Proof.
  intros H. destruct (Ascii.eqb_spec ";" c) as [E|E]; [|reflexivity].
  subst. discriminate H.
Qed.

Lemma digits_no_semicolon (d : string) :
  Grammar.all_digits d = true -> Str.contains_char ";" d = false.
Proof.
  unfold Grammar.all_digits, Str.contains_char.
  induction d as [|c d IH]; cbn [list_ascii_of_string forallb existsb];
    intros H; [reflexivity|].
  apply andb_true_iff in H. destruct H as [Hc Hd].
  now rewrite (digit_not_semicolon c Hc), (IH Hd).
Qed.

(** ** The scan of findall has steps enough *)

Lemma span_length (p : ascii -> bool) (s : string) :
  String.length (snd (Str.span p s)) <= String.length s.
Proof.
  induction s as [|c s IH]; simpl; [lia|].
  destruct (p c); [|simpl; lia].
  destruct (Str.span p s) as [a b]. simpl in *. lia.
Qed.

(** Any two supplies of steps that cover the length of the string give the
    same matches: the supply [String.length s] of [findall] never runs out. *)
Lemma findall_fuel_enough (n m : nat) (s : string) :
  String.length s <= n -> String.length s <= m ->
  findall_fuel n s = findall_fuel m s.
Proof.
  revert m s. induction n as [|n IH]; intros m s Hn Hm.
  - destruct s; [|simpl in Hn; lia]. destruct m; reflexivity.
  - destruct m as [|m]; [destruct s; [reflexivity | simpl in Hm; lia]|].
    destruct s as [|c s]; [reflexivity|].
    cbn [findall_fuel]. simpl in Hn, Hm.
    destruct (is_cycle_letter c) eqn:Hc; [|apply IH; lia].
    cbn [Str.span]. rewrite Hc.
    pose proof (span_length is_cycle_letter s) as H1.
    destruct (Str.span is_cycle_letter s) as [letters r1]. simpl in H1.
    pose proof (span_length Str.is_digit r1) as H2.
    destruct (Str.span Str.is_digit r1) as [digits r2]. simpl in H2.
    f_equal. apply IH.
    + destruct r2 as [|x r2]; [simpl; lia|].
      destruct (Ascii.eqb_spec x ";") as [->|Hx].
      * simpl in *. lia.
      * assert (E : match x with
                    | ";"%char => r2
                    | _ => String x r2
                    end = String x r2).
        { destruct x as [[] [] [] [] [] [] [] []]; try reflexivity. congruence. }
        rewrite E. simpl in *. lia.
    + destruct r2 as [|x r2]; [simpl; lia|].
      destruct (Ascii.eqb_spec x ";") as [->|Hx].
      * simpl in *. lia.
      * assert (E : match x with
                    | ";"%char => r2
                    | _ => String x r2
                    end = String x r2).
        { destruct x as [[] [] [] [] [] [] [] []]; try reflexivity. congruence. }
        rewrite E. simpl in *. lia.
Qed.

(** What the expander does outside the grammar. *)
Example findall_skips_other_characters :
  findall "ab Y2-I3" = [("Y", "2"); ("I", "3")].
Proof. reflexivity. Qed.

Example expand_letter_run : expand "NY2" = Ok "NYNY".
Proof. reflexivity. Qed.

Example expand_letter_without_digits : expand "Y" = Err ValueError.
Proof. reflexivity. Qed.

Example parse_empty_string : parse_overrideCycles "" = Ok [("Read1Cycles", "")].
Proof. reflexivity. Qed.

Example parse_five_segments_first_fails :
  parse_overrideCycles "Y;I1;I1;N1;U1" = Err ValueError.
Proof. reflexivity. Qed.

(** ** The text of a conforming segment *)

Lemma conforming_pair_inv (l : ascii) (d : string) :
  Grammar.conforming_pair (l, d) = true ->
  is_cycle_letter l = true /\ d <> "" /\ Grammar.all_digits d = true.
Proof.
  unfold Grammar.conforming_pair. intros H.
  apply andb_true_iff in H. destruct H as [H Hd].
  apply andb_true_iff in H. destruct H as [Hl Hne].
  repeat split; try assumption.
  apply negb_true_iff, String.eqb_neq in Hne. exact Hne.
Qed.

Lemma render_segment_no_semicolon (seg : Grammar.segment) :
  forallb Grammar.conforming_pair seg = true ->
  Str.contains_char ";" (Grammar.render_segment seg) = false.
Proof.
  induction seg as [|[l d] rest IH]; cbn [forallb Grammar.render_segment];
    intros H; [reflexivity|].
  apply andb_true_iff in H. destruct H as [Hp Hrest].
  apply conforming_pair_inv in Hp. destruct Hp as (Hl & _ & Hd).
  unfold Str.contains_char. cbn [list_ascii_of_string existsb].
  rewrite (cycle_letter_not_semicolon l Hl). cbn [orb].
  fold (Str.contains_char ";" (d ++ Grammar.render_segment rest)).
  rewrite contains_char_append, (digits_no_semicolon d Hd), (IH Hrest).
  reflexivity.
Qed.

(** The text of a sequence of pairs is empty or starts with a letter. *)
Lemma render_segment_head (seg : Grammar.segment) :
  forallb Grammar.conforming_pair seg = true ->
  match Grammar.render_segment seg with
  | EmptyString => True
  | String c _ => is_cycle_letter c = true
  end.
Proof.
  destruct seg as [|[l d] rest]; simpl; intros H; [exact I|].
  apply andb_true_iff in H. destruct H as [Hp _].
  now apply conforming_pair_inv in Hp.
Qed.

Lemma findall_fuel_segment (seg : Grammar.segment) :
  forallb Grammar.conforming_pair seg = true ->
  forall fuel, String.length (Grammar.render_segment seg) <= fuel ->
  findall_fuel fuel (Grammar.render_segment seg)
  = map (fun p : Grammar.pair => (String (fst p) "", snd p)) seg.
Proof.
  induction seg as [|[l d] rest IH]; intros H fuel Hfuel.
  - destruct fuel; reflexivity.
  - simpl in H. apply andb_true_iff in H. destruct H as [Hp Hrest].
    apply conforming_pair_inv in Hp. destruct Hp as (Hl & Hne & Hd).
    pose proof (render_segment_head rest Hrest) as Hhead.
    simpl in Hfuel. destruct fuel as [|fuel]; [lia|].
    cbn [Grammar.render_segment findall_fuel map fst snd]. rewrite Hl.
    assert (Hspan1 : Str.span is_cycle_letter (String l (d ++ Grammar.render_segment rest))
                     = (String l "", d ++ Grammar.render_segment rest)).
    { cbn [Str.span]. rewrite Hl.
      destruct d as [|c d]; [congruence|].
      cbn [Grammar.all_digits list_ascii_of_string forallb] in Hd.
      apply andb_true_iff in Hd. destruct Hd as [Hc _].
      cbn [append Str.span]. now rewrite (digit_not_cycle_letter c Hc). }
    rewrite Hspan1.
    assert (Hspan2 : Str.span Str.is_digit (d ++ Grammar.render_segment rest)
                     = (d, Grammar.render_segment rest)).
    { apply span_append; [exact Hd|].
      destruct (Grammar.render_segment rest) as [|c r]; [exact I|].
      now apply cycle_letter_not_digit. }
    rewrite Hspan2.
    assert (Hr3 : match Grammar.render_segment rest with
                  | String ";" r => r
                  | _ => Grammar.render_segment rest
                  end = Grammar.render_segment rest).
    { destruct (Grammar.render_segment rest) as [|c r] eqn:E; [reflexivity|].
      apply cycle_letter_cases in Hhead.
      destruct Hhead as [-> | [-> | [-> | ->]]]; reflexivity. }
    rewrite Hr3. f_equal. apply IH; [exact Hrest|].
    rewrite length_append in Hfuel. lia.
Qed.

Lemma expand_matches_segment (seg : Grammar.segment) :
  forallb Grammar.conforming_pair seg = true ->
  forall res,
  expand_matches (map (fun p : Grammar.pair => (String (fst p) "", snd p)) seg) res
  = Ok (res ++ Grammar.expand_segment seg).
Proof.
  induction seg as [|[l d] rest IH]; simpl; intros H res.
  - now rewrite append_nil_r.
  - apply andb_true_iff in H. destruct H as [Hp Hrest].
    apply conforming_pair_inv in Hp. destruct Hp as (_ & Hne & _).
    destruct d as [|c d]; [congruence|].
    cbn [Str.int rbind Ok]. rewrite (IH Hrest). now rewrite append_assoc.
Qed.

(** [expand] on the text of a conforming segment is the expansion of the
    specification. *)
Lemma expand_segment_correct (seg : Grammar.segment) :
  Grammar.conforming_segment seg = true ->
  expand (Grammar.render_segment seg) = Ok (Grammar.expand_segment seg).
Proof.
  intros H.
  assert (Hall : forallb Grammar.conforming_pair seg = true)
    by (destruct seg; [discriminate | exact H]).
  unfold expand, findall.
  rewrite findall_fuel_segment by (auto; lia).
  now rewrite expand_matches_segment.
Qed.

Lemma split_render (segs : list Grammar.segment) :
  Grammar.conforming segs = true ->
  Str.split ";" (Grammar.render segs) = map Grammar.render_segment segs.
Proof.
  unfold Grammar.render.
  induction segs as [|seg rest IH]; intros H; [discriminate|].
  assert (Hseg : forallb Grammar.conforming_pair seg = true).
  { simpl in H. apply andb_true_iff in H. destruct H as [H _].
    destruct seg; [discriminate | exact H]. }
  destruct rest as [|seg' rest].
  - simpl. apply split_no_sep. now apply render_segment_no_semicolon.
  - change (map Grammar.render_segment (seg :: seg' :: rest))
      with (Grammar.render_segment seg :: map Grammar.render_segment (seg' :: rest)).
    cbn [Grammar.join map].
    change (Grammar.render_segment seg' :: map Grammar.render_segment rest)
      with (map Grammar.render_segment (seg' :: rest)).
    rewrite split_app_sep by now apply render_segment_no_semicolon.
    f_equal.
    change (match map Grammar.render_segment rest with
            | [] => Grammar.render_segment seg'
            | _ :: _ => Grammar.render_segment seg' ++ String ";" (Grammar.join ";" (map Grammar.render_segment rest))
            end) with (Grammar.join ";" (map Grammar.render_segment (seg' :: rest))).
    apply IH. simpl in H. apply andb_true_iff in H. destruct H as [_ H]. exact H.
Qed.

(** ** parse_overrideCycles *)

Lemma conforming_cons (seg : Grammar.segment) (rest : list Grammar.segment) :
  Grammar.conforming (seg :: rest) = true ->
  Grammar.conforming_segment seg = true /\ forallb Grammar.conforming_segment rest = true.
Proof.
  simpl. intros H. now apply andb_true_iff in H.
Qed.

(** C3. Expanding "Y151;I8;N151" yields Read1Cycles = Y x 151, Index1Cycles =
    I x 8, Read2Cycles = N x 151; and for every conforming cycle string of one
    to four segments whose segments keep the limits of the interpreter (digit
    runs of at most 4300 digits, expansions no longer than the largest index)
    the expander returns the mapping whose names are assigned by position for
    that segment count, each segment expanded by repeating each letter by its
    digit count and concatenating. *)
Theorem parse_overrideCycles_conforming :
  parse_overrideCycles "Y151;I8;N151"
  = Ok [("Read1Cycles", Str.repeat_string "Y" 151);
        ("Index1Cycles", Str.repeat_string "I" 8);
        ("Read2Cycles", Str.repeat_string "N" 151)]
  /\ forall segs : list Grammar.segment,
       Grammar.conforming segs = true ->
       forallb Limits.segment_within segs = true ->
       length segs <= 4 ->
       parse_overrideCycles (Grammar.render segs) = Ok (Grammar.expansion segs).
Proof.
  split; [vm_compute; reflexivity|].
  intros segs Hc _ Hlen.
  unfold parse_overrideCycles, Grammar.expansion.
  rewrite (split_render segs Hc). rewrite length_map.
  destruct segs as [|a [|b [|c [|d [|e rest]]]]]; try discriminate;
    [ | | | | simpl in Hlen; lia ];
    repeat match goal with
           | H : Grammar.conforming (_ :: _) = true |- _ =>
               apply conforming_cons in H; destruct H
           | H : forallb Grammar.conforming_segment (_ :: _) = true |- _ =>
               cbn [forallb] in H
           | H : _ && _ = true |- _ =>
               apply andb_true_iff in H; destruct H
           end;
    cbn [map length nth Nat.ltb Nat.leb Nat.eqb];
    repeat (rewrite expand_segment_correct by assumption; cbn [rbind Ok]);
    reflexivity.
Qed.

(** The theorem at the parse tree of "Y2I1;N3": two segments, within the
    limits. *)
Lemma parse_overrideCycles_conforming_witness :
  parse_overrideCycles "Y2I1;N3" = Ok [("Read1Cycles", "YYI"); ("Read2Cycles", "NNN")].
Proof.
  apply (proj2 parse_overrideCycles_conforming
           [[("Y"%char, "2"); ("I"%char, "1")]; [("N"%char, "3")]]).
  - reflexivity.
  - vm_compute. reflexivity.
  - simpl; lia.
Defined.

(** A conforming string starts with one of the four letters. *)
Lemma conforms_head (s : string) :
  Grammar.conforms s ->
  exists c rest, s = String c rest /\ is_cycle_letter c = true.
Proof.
  intros (segs & Hc & ->).
  destruct segs as [|seg rest]; [discriminate|].
  apply conforming_cons in Hc. destruct Hc as [Hseg _].
  destruct seg as [|[l d] seg]; [discriminate|].
  simpl in Hseg. apply andb_true_iff in Hseg. destruct Hseg as [Hp _].
  apply conforming_pair_inv in Hp. destruct Hp as (Hl & _ & _).
  unfold Grammar.render. cbn [map Grammar.render_segment Grammar.join].
  destruct (map Grammar.render_segment rest); cbn [append]; eauto.
Qed.

(** C4, as stated, fails: "X5" is outside the grammar, and the expander
    returns a mapping for it (with an empty Read1Cycles) instead of failing. *)
Lemma parse_overrideCycles_accepts_nonconforming :
  ~ Grammar.conforms "X5"
  /\ parse_overrideCycles "X5" = Ok [("Read1Cycles", "")].
Proof.
  split; [|reflexivity].
  intros H. apply conforms_head in H. destruct H as (c & rest & E & Hl).
  injection E as <- _. discriminate Hl.
Qed.

(** C4, amended. Every cycle string of five or more segments makes the
    expander fail; the failure is the parse error naming the offending string
    whenever the first segment itself expands. *)
Theorem parse_overrideCycles_too_many (cyclestr : string) :
  5 <= length (Str.split ";" cyclestr) ->
  (exists e, parse_overrideCycles cyclestr = Err e)
  /\ (forall e0, expand (nth 0 (Str.split ";" cyclestr) "") = Ok e0 ->
      parse_overrideCycles cyclestr
      = Err (Exception ("OverrideCycles " ++ cyclestr ++ " defines too many elements."))).
Proof.
  intros Hlen. unfold parse_overrideCycles.
  set (cycles := Str.split ";" cyclestr) in *.
  assert (H1 : (length cycles <? 1)%nat = false) by (apply Nat.ltb_ge; lia).
  assert (H2 : (length cycles =? 2)%nat = false) by (apply Nat.eqb_neq; lia).
  assert (H3 : (length cycles =? 3)%nat = false) by (apply Nat.eqb_neq; lia).
  assert (H4 : (length cycles =? 4)%nat = false) by (apply Nat.eqb_neq; lia).
  assert (H5 : (length cycles =? 1)%nat = false) by (apply Nat.eqb_neq; lia).
  rewrite H1. split.
  - destruct (expand (nth 0 cycles "")) as [e|e0]; cbn [rbind].
    + exists e. reflexivity.
    + rewrite H2, H3, H4, H5. eauto.
  - intros e0 ->. cbn [rbind Ok]. now rewrite H2, H3, H4, H5.
Qed.

Lemma parse_overrideCycles_too_many_witness :
  parse_overrideCycles "Y1;I1;I1;N1;U1"
  = Err (Exception "OverrideCycles Y1;I1;I1;N1;U1 defines too many elements.").
Proof.
  apply (proj2 (parse_overrideCycles_too_many "Y1;I1;I1;N1;U1" ltac:(simpl; lia)) "Y").
  reflexivity.
Defined.

(** ** The checks only read the document *)

Lemma readonly_ret {A : Type} (a : A) : readonly (ret a).
Proof. intros doc. reflexivity. Qed.

Lemma readonly_raise {A : Type} (e : exn) : readonly (@raise A e).
Proof. intros doc. reflexivity. Qed.

Lemma readonly_lift {A : Type} (r : result A) : readonly (lift r).
Proof. intros doc. reflexivity. Qed.

Lemma readonly_doc_contains (k : string) : readonly (doc_contains k).
Proof. intros doc. reflexivity. Qed.

Lemma readonly_doc_getitem (k : string) : readonly (doc_getitem k).
Proof. intros doc. reflexivity. Qed.

Lemma readonly_doc_keys : readonly doc_keys.
Proof. intros doc. reflexivity. Qed.

Lemma readonly_bind {A B : Type} (m : M A) (k : A -> M B) :
  readonly m -> (forall a, readonly (k a)) -> readonly (bind m k).
Proof.
  intros Hm Hk doc. unfold bind.
  specialize (Hm doc). destruct (m doc) as [[e|a] doc']; simpl in Hm; subst doc'.
  - reflexivity.
  - apply Hk.
Qed.

Lemma readonly_when (c : bool) (body : M unit) :
  readonly body -> readonly (when c body).
Proof.
  intros H. destruct c; [exact H | apply readonly_ret].
Qed.

Lemma readonly_if {A : Type} (c : bool) (m1 m2 : M A) :
  readonly m1 -> readonly m2 -> readonly (if c then m1 else m2).
Proof.
  intros H1 H2. destruct c; assumption.
Qed.

Lemma readonly_for_each {A : Type} (l : list A) (body : A -> M unit) :
  (forall x, readonly (body x)) -> readonly (for_each l body).
Proof.
  intros H. induction l as [|x l IH]; simpl.
  - apply readonly_ret.
  - apply readonly_bind; [apply H | intros _; exact IH].
Qed.

Lemma readonly_declared_in_doc (l : list string) : readonly (declared_in_doc l).
Proof.
  induction l as [|i l IH]; simpl.
  - apply readonly_ret.
  - apply readonly_bind; [apply readonly_doc_keys | intros ks].
    apply readonly_bind; [exact IH | intros rest]. apply readonly_ret.
Qed.

Create HintDb frame.
#[local] Hint Resolve readonly_ret readonly_raise readonly_lift readonly_doc_contains
  readonly_doc_getitem readonly_doc_keys readonly_declared_in_doc : frame.

(** Splits a check along its binds, branches and loops down to the reads. *)
Ltac frame :=
  repeat first
    [ solve [auto with frame]
    | apply readonly_bind; [|intros ?]
    | apply readonly_when
    | apply readonly_if
    | apply readonly_for_each; intros ?
    | match goal with
      | |- readonly (let '(_, _) := ?p in _) => destruct p
      end ].

Lemma readonly_override_cycles_rule : readonly override_cycles_rule.
Proof. unfold override_cycles_rule. frame. Qed.

Lemma readonly_adapter_read1_rule : readonly adapter_read1_rule.
Proof. unfold adapter_read1_rule. frame. Qed.

Lemma readonly_adapter_read2_rule : readonly adapter_read2_rule.
Proof. unfold adapter_read2_rule. frame. Qed.

Lemma readonly_barcode_mismatches_rule (n : string) : readonly (barcode_mismatches_rule n).
Proof. unfold barcode_mismatches_rule. frame. Qed.

#[local] Hint Resolve readonly_override_cycles_rule readonly_adapter_read1_rule
  readonly_adapter_read2_rule readonly_barcode_mismatches_rule : frame.

Lemma readonly_bclconvert_settings_rules : readonly bclconvert_settings_rules.
Proof. unfold bclconvert_settings_rules. frame. Qed.

Lemma readonly_bclconvert_data_rules : readonly bclconvert_data_rules.
Proof. unfold bclconvert_data_rules. frame. Qed.

Lemma readonly_illuminasamplesheetv2logic : readonly illuminasamplesheetv2logic.
Proof.
  unfold illuminasamplesheetv2logic.
  apply readonly_bind;
    [apply readonly_bclconvert_settings_rules
    | intros _; apply readonly_bclconvert_data_rules].
Qed.

Lemma readonly_basespacelogic : readonly basespacelogic.
Proof. unfold basespacelogic. frame. Qed.

(** C9. Running illuminasamplesheetv2logic or basespacelogic leaves the
    document as it was, whether the check succeeds or raises. *)
Theorem validators_leave_document_unchanged (doc : SectionedSheet) :
  snd (illuminasamplesheetv2logic doc) = doc /\ snd (basespacelogic doc) = doc.
Proof.
  split.
  - apply readonly_illuminasamplesheetv2logic.
  - apply readonly_basespacelogic.
Qed.

(** ** The constructor of SampleSheetV2 *)

(** A loop stops at the first turn that raises. *)
Lemma for_each_first_failure {A : Type} (body : A -> M unit)
    (pre : list A) (v : A) (post : list A) (e : exn) (doc doc1 doc2 : SectionedSheet) :
  for_each pre body doc = (Ok tt, doc1) ->
  body v doc1 = (Err e, doc2) ->
  for_each (pre ++ v :: post)%list body doc = (Err e, doc2).
Proof.
  revert doc. induction pre as [|x pre IH]; intros doc Hpre Hv.
  - injection Hpre as <-. cbn [app for_each]. unfold bind. now rewrite Hv.
  - cbn [app for_each] in *. unfold bind in *.
    destruct (body x doc) as [[e'|u] d']; [discriminate|].
    now apply IH.
Qed.

Lemma lookup_key_in {V : Type} (k : string) (d : dict V) :
  In k (keys d) -> exists v, lookup k d = Some v.
Proof.
  induction d as [|[k' v'] d IH]; simpl; intros H; [contradiction|].
  destruct (String.eqb_spec k k') as [E|E]; [eauto|].
  destruct H as [H|H]; [congruence | now apply IH].
Qed.

(** Grouping reads each section under one of the document's own keys: it
    neither raises nor changes the document. *)
Lemma group_section_total (self : SampleSheetV2.sheet) (key : string) (doc : SectionedSheet) :
  In key (keys doc) ->
  exists self', SampleSheetV2.group_section self key doc = (Ok self', doc).
Proof.
  intros Hin. destruct (lookup_key_in key doc Hin) as [sec Hsec].
  unfold SampleSheetV2.group_section.
  destruct (Str.endswith key "_Settings");
    [unfold bind, doc_getitem, ret; rewrite Hsec; eexists; reflexivity|].
  destruct (Str.endswith key "_Data");
    [unfold bind, doc_getitem, ret; rewrite Hsec; eexists; reflexivity|].
  destruct (String.eqb_spec key "Header") as [->|_];
    [unfold bind, doc_getitem, ret; rewrite Hsec; eexists; reflexivity|].
  destruct (String.eqb_spec key "Reads") as [->|_];
    [unfold bind, doc_getitem, ret; rewrite Hsec; eexists; reflexivity|].
  unfold ret. eauto.
Qed.

Lemma group_sections_total (ks : list string) (doc : SectionedSheet) :
  (forall k, In k ks -> In k (keys doc)) ->
  forall self, exists self', SampleSheetV2.group_sections ks self doc = (Ok self', doc).
Proof.
  induction ks as [|key ks IH]; intros Hks self; simpl.
  - unfold ret. eauto.
  - destruct (group_section_total self key doc) as [self1 H1]; [apply Hks; now left|].
    unfold bind. rewrite H1. apply IH. intros k Hk. apply Hks. now right.
Qed.

Section Constructor.

Variable schema : Type.
Variable validate : schema -> M unit.

(** C10. With [validation] set to None the constructor raises: the branch for
    None assigns only the unused local, and the loop then iterates None. *)
Theorem init_validation_none_raises (doc : SectionedSheet) :
  SampleSheetV2.__init__ schema validate SampleSheetV2.PyNone doc = (Err TypeError, doc).
Proof. reflexivity. Qed.


End Constructor.


(** ** The rules of illuminasamplesheetv2logic *)

(** C1, on the document where Reads declares Read1Cycles and Read2Cycles and
    OverrideCycles is "Y150": the expansion has no Read2Cycles, yet the check
    passes, because line 202 looks the four names up among the section names
    of the document instead of the keys of Reads. *)
Theorem override_cycles_reads_not_covered :
  lookup "Reads" Examples.reads_not_covered
  = Some (Settings [("Read1Cycles", VInt 150); ("Read2Cycles", VInt 150)])
  /\ rbind (parse_overrideCycles "Y150") (fun cycles => Ok (keys cycles)) = Ok ["Read1Cycles"]
  /\ illuminasamplesheetv2logic Examples.reads_not_covered
     = (Ok tt, Examples.reads_not_covered).
Proof.
  repeat split; vm_compute; reflexivity.
Qed.

(** C5, on every document with a textual AdapterRead1, no OverrideCycles, and
    an integer Read1Cycles: line 206 takes [len] of the integer, so the check
    raises a TypeError whatever the two lengths are, also when the adapter is
    the shorter. *)
Theorem adapter_read1_integer_cycles
    (doc : SectionedSheet) (bs reads : dict value) (adapter : string) (n : Z) :
  lookup "BCLConvert_Settings" doc = Some (Settings bs) ->
  lookup "OverrideCycles" bs = None ->
  lookup "AdapterRead1" bs = Some (VStr adapter) ->
  lookup "Reads" doc = Some (Settings reads) ->
  lookup "Read1Cycles" reads = Some (VInt n) ->
  illuminasamplesheetv2logic doc = (Err TypeError, doc).
Proof.
  intros Hbs Hoc Had Hreads Hr1.
  unfold illuminasamplesheetv2logic, bclconvert_settings_rules,
    override_cycles_rule, adapter_read1_rule.
  cbv beta iota delta [bind doc_contains doc_getitem when lift has_key sec_contains
                       sec_getitem len Ok Err].
  rewrite Hbs. cbv beta iota. rewrite Hbs. cbv beta iota. rewrite Hoc.
  cbv beta iota delta [ret]. rewrite Hbs. cbv beta iota. rewrite Had.
  cbv beta iota. rewrite Hbs. cbv beta iota. rewrite Had. cbv beta iota.
  rewrite Hreads. cbv beta iota. rewrite Hr1. reflexivity.
Qed.

Lemma adapter_read1_integer_cycles_witness :
  illuminasamplesheetv2logic Examples.short_adapter = (Err TypeError, Examples.short_adapter).
Proof.
  apply (adapter_read1_integer_cycles Examples.short_adapter
           [("AdapterRead1", VStr "ACGT")] [("Read1Cycles", VInt 151)] "ACGT" 151);
    reflexivity.
Defined.

(** ** to_string *)

(** C2, on the document with a Header and a Reads section: the constructor
    stores the Reads section in the attribute [reads], and the rendered text
    is the Header block alone.  In general the text does not depend on the
    attribute [reads]: line 313 tests for an attribute named [Reads], which
    no instance has. *)
Theorem to_string_omits_reads
    (settings_to_string data_to_string : section -> string) :
  (forall (apps : list (SampleSheetV2.appname * SampleSheetV2.application))
          (h r : option section),
     SampleSheetV2.to_string settings_to_string data_to_string
       {| SampleSheetV2.applications := apps;
          SampleSheetV2.header := h;
          SampleSheetV2.reads := r |}
     = SampleSheetV2.to_string settings_to_string data_to_string
         {| SampleSheetV2.applications := apps;
            SampleSheetV2.header := h;
            SampleSheetV2.reads := None |})
  /\ exists self,
       SampleSheetV2.__init__ unit (fun _ => ret tt)
         (SampleSheetV2.PyList [SampleSheetV2.PyFunction illuminasamplesheetv2logic])
         Examples.header_and_reads
       = (Ok self, Examples.header_and_reads)
       /\ SampleSheetV2.reads self = Some (Settings [("Read1Cycles", VInt 151)])
       /\ SampleSheetV2.to_string settings_to_string data_to_string self
          = "[Header]" ++ SampleSheetV2.nl
            ++ settings_to_string (Settings [("FileFormatVersion", VInt 2)]).
Proof.
  split.
  - intros apps h r. unfold SampleSheetV2.to_string, SampleSheetV2.attributes.
    destruct h, r; reflexivity.
  - eexists. split; [vm_compute; reflexivity|]. split; reflexivity.
Qed.

(** ** Equality of cells and columns of rows *)

Lemma value_eqb_eq (a b : value) : value_eqb a b = true <-> a = b.
Proof.
  destruct a as [x|x], b as [y|y]; simpl; split; intros H; try discriminate.
  - apply Z.eqb_eq in H. now subst.
  - injection H as ->. apply Z.eqb_refl.
  - apply String.eqb_eq in H. now subst.
  - injection H as ->. apply String.eqb_refl.
Qed.

Lemma existsb_value_In (v : value) (l : list value) :
  existsb (value_eqb v) l = true <-> In v l.
Proof.
  rewrite existsb_exists. split.
  - intros (x & Hx & E). apply value_eqb_eq in E. now subst.
  - intros H. exists v. split; [exact H | now apply value_eqb_eq].
Qed.

Lemma existsb_value_not_In (v : value) (l : list value) :
  existsb (value_eqb v) l = false <-> ~ In v l.
Proof.
  rewrite <- existsb_value_In. destruct (existsb (value_eqb v) l); split; congruence.
Qed.

(** The column [k] of rows that all carry [k]. *)
Lemma column_rows_Forall2 (k : string) (rows : list row) (vs : list value) :
  Forall2 (fun r v => lookup k r = Some v) rows vs ->
  column_rows k rows = Ok vs.
Proof.
  induction 1 as [|r v rows vs Hr _ IH]; simpl; [reflexivity|].
  unfold row_getitem. rewrite Hr. simpl. now rewrite IH.
Qed.

(** A loop of guarded raises passes when no guard holds, and raises at the
    first element whose guard holds. *)
Lemma for_each_guard_none {A : Type} (p : A -> bool) (err : A -> exn)
    (l : list A) (doc : SectionedSheet) :
  (forall x, In x l -> p x = false) ->
  for_each l (fun x => when (p x) (raise (err x))) doc = (Ok tt, doc).
Proof.
  induction l as [|x l IH]; intros H; simpl; [reflexivity|].
  unfold bind. rewrite (H x (or_introl eq_refl)). simpl.
  apply IH. intros y Hy. apply H. now right.
Qed.

Lemma for_each_guard_some {A : Type} (p : A -> bool) (err : A -> exn)
    (l : list A) (doc : SectionedSheet) :
  (exists x, In x l /\ p x = true) ->
  exists x, In x l /\ p x = true
            /\ for_each l (fun x => when (p x) (raise (err x))) doc = (Err (err x), doc).
Proof.
  induction l as [|x l IH]; intros (y & Hy & Hp); [contradiction|].
  simpl. unfold bind. destruct (p x) eqn:Hx; simpl.
  - exists x. auto.
  - destruct Hy as [->|Hy]; [congruence|].
    destruct IH as (z & Hz & Hpz & E); [eauto|].
    exists z. auto.
Qed.

(** ** basespacelogic *)

(** C7. basespacelogic raises, naming the section, when Cloud_Data is absent
    and when BCLConvert_Data is absent; when both are lists of rows that each
    carry a Sample_ID, it raises, naming a missing ID, if some Sample_ID of
    BCLConvert_Data is not among those of Cloud_Data, and passes otherwise;
    so an ID that only Cloud_Data has never makes it raise. *)
Theorem basespacelogic_spec (doc : SectionedSheet) :
  (lookup "Cloud_Data" doc = None ->
   basespacelogic doc = (Err (Exception "no Cloud_Data section"), doc))
  /\ (lookup "Cloud_Data" doc <> None ->
      lookup "BCLConvert_Data" doc = None ->
      basespacelogic doc = (Err (Exception "no BCLConvert_Data section"), doc))
  /\ (forall cloud bcl cloud_ids bcl_ids,
        lookup "Cloud_Data" doc = Some (Data cloud) ->
        lookup "BCLConvert_Data" doc = Some (Data bcl) ->
        Forall2 (fun r v => lookup "Sample_ID" r = Some v) cloud cloud_ids ->
        Forall2 (fun r v => lookup "Sample_ID" r = Some v) bcl bcl_ids ->
        ((forall id, In id bcl_ids -> In id cloud_ids) ->
         basespacelogic doc = (Ok tt, doc))
        /\ ((exists id, In id bcl_ids /\ ~ In id cloud_ids) ->
            exists id, In id bcl_ids /\ ~ In id cloud_ids
              /\ basespacelogic doc
                 = (Err (Exception ("Sample_ID " ++ str id
                      ++ " is defined in the BCLConvert_Data section, but not in the Cloud_Data section.")),
                    doc))).
Proof.
  unfold basespacelogic.
  split; [|split].
  - intros Hc. cbv beta iota delta [bind doc_contains has_key Ok]. now rewrite Hc.
  - intros Hc Hb. destruct (lookup "Cloud_Data" doc) as [sec|] eqn:E; [|congruence].
    cbv beta iota delta [bind doc_contains has_key Ok negb]. rewrite E.
    cbv beta iota. now rewrite Hb.
  - intros cloud bcl cloud_ids bcl_ids Hc Hb Hcloud Hbcl.
    apply column_rows_Forall2 in Hcloud, Hbcl.
    cbv beta iota delta [bind doc_contains doc_getitem has_key lift column Ok].
    rewrite Hc. cbv beta iota delta [negb]. rewrite Hb. cbv beta iota.
    rewrite Hc. cbv beta iota. unfold Ok in Hcloud, Hbcl.
    rewrite Hcloud. cbv beta iota. rewrite Hb. cbv beta iota.
    rewrite Hbcl. cbv beta iota.
    split.
    + intros Hall.
      apply (for_each_guard_none
               (fun id => negb (existsb (value_eqb id) cloud_ids))
               (fun id => Exception ("Sample_ID " ++ str id
                  ++ " is defined in the BCLConvert_Data section, but not in the Cloud_Data section."))).
      intros id Hid. apply negb_false_iff, existsb_value_In, Hall, Hid.
    + intros (id & Hid & Hnot).
      destruct (for_each_guard_some
                  (fun id => negb (existsb (value_eqb id) cloud_ids))
                  (fun id => Exception ("Sample_ID " ++ str id
                     ++ " is defined in the BCLConvert_Data section, but not in the Cloud_Data section."))
                  bcl_ids doc) as (x & Hx & Hpx & E).
      { exists id. split; [exact Hid|].
        apply negb_true_iff, existsb_value_not_In, Hnot. }
      exists x. split; [exact Hx|]. split; [|exact E].
      apply existsb_value_not_In, negb_true_iff, Hpx.
Qed.

(** The theorem on a document whose cloud section knows one sample more than
    the demultiplexing section: the check passes. *)
Lemma basespacelogic_spec_witness :
  basespacelogic Examples.cloud_superset = (Ok tt, Examples.cloud_superset).
Proof.
  apply (proj1 (proj2 (proj2 (basespacelogic_spec Examples.cloud_superset))
                  [[("Sample_ID", VStr "s1")]; [("Sample_ID", VStr "s2")]]
                  [[("Sample_ID", VStr "s1")]]
                  [VStr "s1"; VStr "s2"] [VStr "s1"]
                  eq_refl eq_refl
                  ltac:(repeat constructor) ltac:(repeat constructor))).
  intros id [<-|[]]. now left.
Defined.

(** ** The uniqueness of the composite index keys *)

Lemma dedup_length_le (l : list value) : length (dedup l) <= length l.
Proof.
  induction l as [|v l IH]; simpl; [lia|].
  destruct (existsb (value_eqb v) l); simpl; lia.
Qed.

(** [len(set(index)) == len(index)] says that [index] has no repetition. *)
Lemma dedup_length_NoDup (l : list value) :
  length (dedup l) = length l <-> NoDup l.
Proof.
  induction l as [|v l IH]; simpl.
  - split; [constructor | reflexivity].
  - destruct (existsb (value_eqb v) l) eqn:E.
    + split.
      * intros H. pose proof (dedup_length_le l). lia.
      * intros H. inversion H as [|? ? Hnot _]; subst.
        apply existsb_value_In in E. contradiction.
    + apply existsb_value_not_In in E. simpl. split.
      * intros H. constructor; [exact E|]. apply IH. lia.
      * intros H. inversion H; subst. f_equal. now apply IH.
Qed.

Lemma NoDup_map_VStr (ks : list string) : NoDup (map VStr ks) <-> NoDup ks.
Proof.
  split.
  - apply NoDup_map_inv.
  - induction 1 as [|k ks Hk _ IH]; simpl; constructor; [|exact IH].
    rewrite in_map_iff. intros (x & E & Hx). injection E as ->. contradiction.
Qed.

Lemma composite_key_index (r : row) (k : string) :
  composite_key r = Some k -> has_key "Index" r = true.
Proof.
  unfold composite_key, has_key.
  destruct (lookup "Index" r) as [[z|i]|]; [discriminate | reflexivity | discriminate].
Qed.

(** The columns line 226-229 build, when every row has an Index2. *)
Lemma index_columns_with_index2 (rows : list row) (ks : list string) :
  Forall2 (fun r k => composite_key r = Some k) rows ks ->
  (forall r, In r rows -> has_key "Index2" r = true) ->
  exists i1 i2,
    column_rows "Index" rows = Ok i1
    /\ column_rows "Index2" rows = Ok i2
    /\ zip_add i1 i2 = Ok (map VStr ks).
Proof.
  induction 1 as [|r k rows ks Hr _ IH]; intros Hall.
  - exists [], []. repeat split.
  - destruct IH as (i1 & i2 & H1 & H2 & Hz); [intros r' Hr'; apply Hall; now right|].
    specialize (Hall r (or_introl eq_refl)).
    unfold composite_key in Hr. unfold has_key in Hall.
    destruct (lookup "Index" r) as [[z|i]|] eqn:Ei; try discriminate.
    destruct (lookup "Index2" r) as [[z|j]|] eqn:Ej; try discriminate.
    injection Hr as <-.
    exists (VStr i :: i1), (VStr j :: i2).
    cbn [column_rows]. unfold row_getitem. rewrite Ei, Ej, H1, H2.
    cbn [rbind Ok zip_add add]. rewrite Hz. repeat split.
Qed.

(** The column line 226 builds, when no row has an Index2. *)
Lemma index_column_without_index2 (rows : list row) (ks : list string) :
  Forall2 (fun r k => composite_key r = Some k) rows ks ->
  (forall r, In r rows -> has_key "Index2" r = false) ->
  column_rows "Index" rows = Ok (map VStr ks).
Proof.
  induction 1 as [|r k rows ks Hr _ IH]; intros Hall; [reflexivity|].
  specialize (IH (fun r' Hr' => Hall r' (or_intror Hr'))).
  specialize (Hall r (or_introl eq_refl)).
  unfold composite_key in Hr. unfold has_key in Hall.
  destruct (lookup "Index" r) as [[z|i]|] eqn:Ei; try discriminate.
  destruct (lookup "Index2" r) as [[z|j]|] eqn:Ej; try discriminate.
  injection Hr as <-.
  cbn [column_rows]. unfold row_getitem. rewrite Ei, IH. reflexivity.
Qed.

Lemma has_key_lookup {V : Type} (k : string) (d : dict V) (v : V) :
  lookup k d = Some v -> has_key k d = true.
Proof. unfold has_key. now intros ->. Qed.

(** Lines 223-233 on a table of two or more rows whose composite keys are
    defined and whose rows agree on having an Index2: the list [index] of
    line 229 or 231 is the list of composite keys. *)
Lemma data_rules_index (doc : SectionedSheet) (rows : list row) (ks : list string) :
  lookup "BCLConvert_Data" doc = Some (Data rows) ->
  2 <= length rows ->
  Forall2 (fun r k => composite_key r = Some k) rows ks ->
  (forall r r', In r rows -> In r' rows -> has_key "Index2" r = has_key "Index2" r') ->
  bclconvert_data_rules doc
  = (if (length (dedup (map VStr ks)) =? length (map VStr ks))%nat then Ok tt
     else Err (Exception "Indices are not unique."), doc).
Proof.
  intros Hdoc Hlen Hkeys Huni.
  assert (Hlt : (1 <? length rows)%nat = true) by (apply Nat.ltb_lt; lia).
  destruct rows as [|r0 rows']; [simpl in Hlen; lia|].
  assert (Hi0 : has_key "Index" r0 = true).
  { inversion Hkeys; subst. eapply composite_key_index; eassumption. }
  unfold bclconvert_data_rules.
  cbv beta iota delta [bind doc_contains doc_getitem when lift sec_len sec_first
                       column ret Ok Err].
  rewrite (has_key_lookup _ _ _ Hdoc). cbv beta iota. rewrite Hdoc. cbv beta iota.
  rewrite Hlt. rewrite Hdoc. cbv beta iota. rewrite Hi0. cbv beta iota delta [negb].
  rewrite Hdoc. cbv beta iota.
  destruct (has_key "Index2" r0) eqn:E2.
  - destruct (index_columns_with_index2 (r0 :: rows') ks Hkeys) as (i1 & i2 & H1 & H2 & Hz).
    { intros r Hr. transitivity (has_key "Index2" r0); [|exact E2].
      apply Huni; [exact Hr | now left]. }
    unfold Ok in H1, H2, Hz. rewrite H1. cbv beta iota. rewrite Hdoc. cbv beta iota.
    rewrite H2. cbv beta iota. rewrite Hz. cbv beta iota.
    destruct (length (dedup (map VStr ks)) =? length (map VStr ks))%nat; reflexivity.
  - pose proof (index_column_without_index2 (r0 :: rows') ks Hkeys) as H1.
    unfold Ok in H1. rewrite H1.
    2:{ intros r Hr. transitivity (has_key "Index2" r0); [|exact E2].
        apply Huni; [exact Hr | now left]. }
    cbv beta iota.
    destruct (length (dedup (map VStr ks)) =? length (map VStr ks))%nat; reflexivity.
Qed.

(** The outcome of the whole check, from the outcome of the data rules. *)
Lemma logic_when_data_passes (doc : SectionedSheet) :
  bclconvert_data_rules doc = (Ok tt, doc) ->
  illuminasamplesheetv2logic doc = bclconvert_settings_rules doc.
Proof.
  intros H. unfold illuminasamplesheetv2logic, bind.
  pose proof (readonly_bclconvert_settings_rules doc) as Hro.
  destruct (bclconvert_settings_rules doc) as [[e|[]] d]; simpl in Hro; subst d.
  - reflexivity.
  - exact H.
Qed.

Lemma logic_when_data_fails (doc : SectionedSheet) (e : exn) :
  bclconvert_data_rules doc = (Err e, doc) ->
  exists e', fst (illuminasamplesheetv2logic doc) = Err e'.
Proof.
  intros H. unfold illuminasamplesheetv2logic, bind.
  pose proof (readonly_bclconvert_settings_rules doc) as Hro.
  destruct (bclconvert_settings_rules doc) as [[e'|[]] d]; simpl in Hro; subst d.
  - exists e'. reflexivity.
  - exists e. now rewrite H.
Qed.

(** C6, as stated, fails: the two rows of this table have the composite keys
    A (Index alone) and AC (Index with Index2), which differ, and the check
    raises that the indices are not unique, because only the first row
    decides whether Index2 takes part. *)
Lemma index_uniqueness_mixed_rows :
  lookup "BCLConvert_Data" Examples.mixed_rows
  = Some (Data [[("Sample_ID", VStr "s1"); ("Index", VStr "A")];
                [("Sample_ID", VStr "s2"); ("Index", VStr "A"); ("Index2", VStr "C")]])
  /\ map composite_key
       [[("Sample_ID", VStr "s1"); ("Index", VStr "A")];
        [("Sample_ID", VStr "s2"); ("Index", VStr "A"); ("Index2", VStr "C")]]
     = [Some "A"; Some "AC"]
  /\ NoDup ["A"; "AC"]
  /\ illuminasamplesheetv2logic Examples.mixed_rows
     = (Err (Exception "Indices are not unique."), Examples.mixed_rows).
Proof.
  repeat split.
  constructor; [|constructor; [intros []|constructor]].
  intros [H|[]]. discriminate H.
Qed.

(** C6, amended. For a BCLConvert_Data table of two or more rows that each
    have a composite key and that agree on having an Index2: validation
    fails, with the error that the indices are not unique, if two rows have
    the same composite key, and the data rules pass, leaving the outcome to
    the settings rules, if the composite keys are pairwise distinct.  A table
    of exactly one row passes the data rules whatever the row holds. *)
Theorem index_uniqueness (doc : SectionedSheet) (rows : list row) :
  lookup "BCLConvert_Data" doc = Some (Data rows) ->
  (length rows = 1 ->
   bclconvert_data_rules doc = (Ok tt, doc)
   /\ illuminasamplesheetv2logic doc = bclconvert_settings_rules doc)
  /\ (forall ks,
        2 <= length rows ->
        Forall2 (fun r k => composite_key r = Some k) rows ks ->
        (forall r r', In r rows -> In r' rows ->
                      has_key "Index2" r = has_key "Index2" r') ->
        (~ NoDup ks ->
         bclconvert_data_rules doc = (Err (Exception "Indices are not unique."), doc)
         /\ exists e, fst (illuminasamplesheetv2logic doc) = Err e)
        /\ (NoDup ks ->
            bclconvert_data_rules doc = (Ok tt, doc)
            /\ illuminasamplesheetv2logic doc = bclconvert_settings_rules doc)).
Proof.
  intros Hdoc. split.
  - intros Hlen.
    assert (H : bclconvert_data_rules doc = (Ok tt, doc)).
    { unfold bclconvert_data_rules.
      cbv beta iota delta [bind doc_contains doc_getitem when sec_len ret Ok].
      rewrite (has_key_lookup _ _ _ Hdoc). cbv beta iota. rewrite Hdoc. cbv beta iota.
      rewrite Hlen. reflexivity. }
    split; [exact H | now apply logic_when_data_passes].
  - intros ks Hlen Hkeys Huni.
    pose proof (data_rules_index doc rows ks Hdoc Hlen Hkeys Huni) as H.
    destruct (length (dedup (map VStr ks)) =? length (map VStr ks))%nat eqn:E.
    + apply Nat.eqb_eq, dedup_length_NoDup, NoDup_map_VStr in E.
      split; [contradiction|]. intros _.
      split; [exact H | now apply logic_when_data_passes].
    + apply Nat.eqb_neq in E.
      split.
      * intros _. split; [exact H | now apply (logic_when_data_fails doc _ H)].
      * intros Hnd. exfalso. apply E. now apply dedup_length_NoDup, NoDup_map_VStr.
Qed.

(** The theorem on a table of two rows with the keys AC and AG. *)
Lemma index_uniqueness_witness :
  bclconvert_data_rules Examples.distinct_rows = (Ok tt, Examples.distinct_rows)
  /\ illuminasamplesheetv2logic Examples.distinct_rows
     = bclconvert_settings_rules Examples.distinct_rows.
Proof.
  refine (proj2 (proj2 (index_uniqueness Examples.distinct_rows _ eq_refl)
                   ["AC"; "AG"] _ _ _) _).
  - simpl; lia.
  - repeat constructor.
  - intros r r' [<-|[<-|[]]] [<-|[<-|[]]]; reflexivity.
  - constructor; [|constructor; [intros []|constructor]].
    intros [H|[]]. discriminate H.
Defined.

(** * Further properties of the code *)

(** ** The expander on arbitrary strings *)

Lemma split_nonempty (sep : ascii) (s : string) : 1 <= length (Str.split sep s).
Proof.
  induction s as [|c s IH]; simpl; [lia|].
  destruct (Ascii.eqb c sep); [simpl; lia|].
  destruct (Str.split sep s); simpl in *; lia.
Qed.

Lemma append_inv_head (a b c : string) : a ++ b = a ++ c -> b = c.
Proof.
  induction a as [|x a IH]; simpl; intros H; [exact H|].
  injection H as H. now apply IH.
Qed.

Lemma expand_matches_error (matches : list (string * string)) (res : string) (e : exn) :
  expand_matches matches res = Err e -> e = ValueError.
Proof.
  revert res. induction matches as [|[letter freq] rest IH]; intros res H.
  - discriminate H.
  - cbn [expand_matches] in H. destruct freq as [|c freq].
    + cbn in H. now injection H as <-.
    + cbn [Str.int rbind Ok] in H. now apply IH in H.
Qed.

Lemma expand_error (short : string) (e : exn) :
  expand short = Err e -> e = ValueError.
Proof. apply expand_matches_error. Qed.

(** X1. On a cycle string whose segments keep the limits of the interpreter
    (digit runs of at most 4300 digits, expansions no longer than the largest
    index) the expander raises only two errors: the integer-conversion error
    of a segment in which a letter run has no count, and, for five or more
    segments, the error that the string defines too many elements.  The error
    of line 169 is never raised: [split] returns at least one segment. *)
Theorem parse_overrideCycles_errors (cyclestr : string) (e : exn) :
  Limits.cycle_string_within cyclestr = true ->
  parse_overrideCycles cyclestr = Err e ->
  (e = ValueError
   \/ (e = Exception ("OverrideCycles " ++ cyclestr ++ " defines too many elements.")
       /\ 5 <= length (Str.split ";" cyclestr)))
  /\ e <> Exception ("OverrideCycles " ++ cyclestr ++ " cannot be parsed to a cycle sequence.").
Proof.
  intros _ H.
  assert (Hmain : e = ValueError
     \/ (e = Exception ("OverrideCycles " ++ cyclestr ++ " defines too many elements.")
         /\ 5 <= length (Str.split ";" cyclestr))).
  { unfold parse_overrideCycles in H.
    pose proof (split_nonempty ";" cyclestr) as Hne.
    set (cycles := Str.split ";" cyclestr) in *.
    destruct (length cycles) as [|[|[|[|[|n]]]]] eqn:Hlen; [lia| | | | |];
      cbn [Nat.ltb Nat.leb Nat.eqb] in H;
      repeat match type of H with
             | rbind (expand ?x) _ = _ =>
                 let E := fresh "E" in
                 destruct (expand x) as [?e|?s] eqn:E;
                 [ cbn [rbind] in H; injection H as <-; left;
                   eapply expand_error; exact E
                 | cbn [rbind] in H ]
             end;
      try discriminate H.
    right. unfold Err in H. injection H as <-. split; [reflexivity | lia]. }
  split; [exact Hmain|].
  destruct Hmain as [->|[-> _]]; [discriminate|].
  intros E. injection E as E.
  apply append_inv_head in E. discriminate E.
Qed.

Lemma parse_overrideCycles_errors_witness :
  Exception "OverrideCycles Y1;I1;I1;N1;U1 defines too many elements."
  <> Exception "OverrideCycles Y1;I1;I1;N1;U1 cannot be parsed to a cycle sequence.".
Proof.
  refine (proj2 (parse_overrideCycles_errors "Y1;I1;I1;N1;U1" _ _ eq_refl)).
  vm_compute. reflexivity.
Defined.

(** X2. Whatever the string, a mapping the expander returns has, in this
    order, exactly the names that the number of ';'-separated segments fixes,
    and that number is between one and four. *)
Theorem parse_overrideCycles_keys (cyclestr : string) (res : dict string) :
  parse_overrideCycles cyclestr = Ok res ->
  keys res = Grammar.segment_names (length (Str.split ";" cyclestr))
  /\ 1 <= length (Str.split ";" cyclestr) <= 4.
Proof.
  intros H. unfold parse_overrideCycles in H.
  pose proof (split_nonempty ";" cyclestr) as Hne.
  set (cycles := Str.split ";" cyclestr) in *.
  destruct (length cycles) as [|[|[|[|[|n]]]]] eqn:Hlen; [lia| | | | |];
    cbn [Nat.ltb Nat.leb Nat.eqb] in H;
    repeat match type of H with
           | rbind (expand ?x) _ = _ =>
               destruct (expand x) as [?e|?s]; cbn [rbind] in H; [discriminate H|]
           end;
    try discriminate H;
    unfold Ok in H; injection H as <-; (split; [reflexivity | lia]).
Qed.

Lemma parse_overrideCycles_keys_witness :
  keys [("Read1Cycles", "YY"); ("Read2Cycles", "")] = ["Read1Cycles"; "Read2Cycles"]
  /\ 1 <= 2 <= 4.
Proof.
  exact (parse_overrideCycles_keys "Y2;" _ eq_refl).
Defined.

(** ** The text of an expansion *)

Lemma list_ascii_of_append (a b : string) :
  list_ascii_of_string (a ++ b) = (list_ascii_of_string a ++ list_ascii_of_string b)%list.
Proof.
  induction a as [|x a IH]; simpl; [reflexivity | now rewrite IH].
Qed.

Lemma cycle_letters_only_append (a b : string) :
  cycle_letters_only (a ++ b) = cycle_letters_only a && cycle_letters_only b.
Proof.
  unfold cycle_letters_only. now rewrite list_ascii_of_append, forallb_app.
Qed.

Lemma cycle_letters_only_repeat (s : string) (n : nat) :
  cycle_letters_only s = true -> cycle_letters_only (Str.repeat_string s n) = true.
Proof.
  intros H. induction n as [|n IH]; simpl; [reflexivity|].
  now rewrite cycle_letters_only_append, H, IH.
Qed.

Lemma span_prefix_all (p : ascii -> bool) (s : string) :
  forallb p (list_ascii_of_string (fst (Str.span p s))) = true.
Proof.
  induction s as [|c s IH]; simpl; [reflexivity|].
  destruct (p c) eqn:Hc; [|reflexivity].
  destruct (Str.span p s) as [a b]. simpl in *. now rewrite Hc, IH.
Qed.

(** The first group of every match is a run of cycle letters. *)
Lemma findall_fuel_letters (fuel : nat) (s : string) :
  Forall (fun m : string * string => cycle_letters_only (fst m) = true)
         (findall_fuel fuel s).
Proof.
  revert s. induction fuel as [|fuel IH]; intros s; [constructor|].
  destruct s as [|c s]; [constructor|].
  cbn [findall_fuel]. destruct (is_cycle_letter c) eqn:Hc; [|apply IH].
  pose proof (span_prefix_all is_cycle_letter (String c s)) as Hl.
  destruct (Str.span is_cycle_letter (String c s)) as [letters r1].
  destruct (Str.span Str.is_digit r1) as [digits r2].
  constructor; [exact Hl | apply IH].
Qed.

Lemma expand_matches_letters (matches : list (string * string)) (res e : string) :
  Forall (fun m : string * string => cycle_letters_only (fst m) = true) matches ->
  cycle_letters_only res = true ->
  expand_matches matches res = Ok e ->
  cycle_letters_only e = true.
Proof.
  intros Hm. revert res. induction Hm as [|[letter freq] rest Hl _ IH]; intros res Hres H.
  - cbn in H. now injection H as <-.
  - cbn [expand_matches] in H. destruct (Str.int freq) as [err|n]; [discriminate H|].
    cbn [rbind] in H. apply IH in H; [exact H|].
    rewrite cycle_letters_only_append, Hres. now apply cycle_letters_only_repeat.
Qed.

Lemma expand_letters (short e : string) :
  expand short = Ok e -> cycle_letters_only e = true.
Proof.
  apply expand_matches_letters; [apply findall_fuel_letters | reflexivity].
Qed.

(** X3. Whatever the string, every expansion in a mapping the expander
    returns is made of the letters N, Y, I and U only. *)
Theorem parse_overrideCycles_letters (cyclestr : string) (res : dict string) :
  parse_overrideCycles cyclestr = Ok res ->
  forall name elemseq, In (name, elemseq) res -> cycle_letters_only elemseq = true.
Proof.
  intros H. unfold parse_overrideCycles in H.
  pose proof (split_nonempty ";" cyclestr) as Hne.
  set (cycles := Str.split ";" cyclestr) in *.
  destruct (length cycles) as [|[|[|[|[|n]]]]] eqn:Hlen; [lia| | | | |];
    cbn [Nat.ltb Nat.leb Nat.eqb] in H;
    repeat match type of H with
           | rbind (expand ?x) _ = _ =>
               let E := fresh "E" in
               destruct (expand x) as [?e|?s] eqn:E; cbn [rbind] in H;
               [discriminate H | apply expand_letters in E]
           end;
    try discriminate H;
    unfold Ok in H; injection H as <-;
    intros name elemseq Hin; simpl in Hin;
    repeat match goal with
           | Hin : _ \/ _ |- _ => destruct Hin as [Hin|Hin]
           | Hin : (_, _) = (_, _) |- _ => injection Hin as <- <-
           | Hin : False |- _ => contradiction
           end;
    assumption.
Qed.

Lemma parse_overrideCycles_letters_witness : cycle_letters_only "YYUUU" = true.
Proof.
  apply (parse_overrideCycles_letters "Y2U3;I1" _ eq_refl "Read1Cycles" "YYUUU").
  left. reflexivity.
Defined.

Lemma length_repeat_string (s : string) (n : nat) :
  String.length (Str.repeat_string s n) = n * String.length s.
Proof.
  induction n as [|n IH]; simpl; [reflexivity|].
  rewrite length_append, IH. lia.
Qed.

Lemma length_expand_segment (seg : Grammar.segment) :
  String.length (Grammar.expand_segment seg) = segment_cycles seg.
Proof.
  unfold segment_cycles.
  induction seg as [|[l d] rest IH]; simpl; [reflexivity|].
  rewrite length_append, length_repeat_string, IH. simpl. lia.
Qed.

(** ** The limits of the interpreter *)

(** The binary value of a digit run is the value [Str.int] returns. *)
Lemma decimal_value_N_spec (s : string) :
  Limits.decimal_value_N s = N.of_nat (Str.decimal_value s).
Proof.
  unfold Limits.decimal_value_N, Str.decimal_value.
  assert (Hacc : forall (l : list ascii) (acc : nat),
             fold_left (fun a c => (10 * a + N.of_nat (Str.digit_value c))%N)
                       l (N.of_nat acc)
             = N.of_nat (fold_left (fun a c => 10 * a + Str.digit_value c) l acc)).
  { induction l as [|c l IH]; intros acc; [reflexivity|].
    cbn [fold_left]. rewrite <- IH. f_equal. lia. }
  exact (Hacc (list_ascii_of_string s) 0).
Qed.

(** [Limits.expanded_length] is the number of characters the loop of [expand]
    adds to its result, so the limit bounds the text that is built. *)
Lemma expanded_length_spec (matches : list (string * string)) :
  forall res e,
  expand_matches matches res = Ok e ->
  N.of_nat (String.length e)
  = (N.of_nat (String.length res) + Limits.expanded_length matches)%N.
Proof.
  induction matches as [|[letter freq] rest IH]; intros res e H.
  - cbn in H. injection H as <-. cbn. lia.
  - cbn [expand_matches] in H.
    destruct (Str.int freq) as [err|n] eqn:En; [discriminate H|].
    cbn [rbind] in H. apply IH in H. rewrite H.
    rewrite length_append, length_repeat_string.
    cbn [Limits.expanded_length fold_right fst snd].
    fold (Limits.expanded_length rest).
    rewrite decimal_value_N_spec.
    destruct freq as [|c freq]; [discriminate En|].
    cbn [Str.int] in En. injection En as <-. lia.
Qed.

(** On the text of a conforming segment the limits are those of its parse
    tree. *)
Lemma text_within_render_segment (seg : Grammar.segment) :
  Grammar.conforming_segment seg = true ->
  Limits.text_within (Grammar.render_segment seg) = Limits.segment_within seg.
Proof.
  intros H.
  assert (Hall : forallb Grammar.conforming_pair seg = true)
    by (destruct seg; [discriminate | exact H]).
  unfold Limits.text_within, Limits.segment_within, findall.
  now rewrite findall_fuel_segment by (auto; lia).
Qed.

Lemma cycle_string_within_render (segs : list Grammar.segment) :
  Grammar.conforming segs = true ->
  Limits.cycle_string_within (Grammar.render segs)
  = forallb Limits.segment_within segs.
Proof.
  intros H. unfold Limits.cycle_string_within.
  rewrite (split_render segs H).
  assert (Hall : forallb Grammar.conforming_segment segs = true)
    by (destruct segs; [discriminate | exact H]).
  clear H. induction segs as [|seg rest IH]; [reflexivity|].
  cbn [forallb] in Hall. apply andb_true_iff in Hall. destruct Hall as [Hs Hr].
  cbn [map forallb]. rewrite (text_within_render_segment seg Hs). now rewrite IH.
Qed.

(** The limits leave out the conforming strings on which the interpreter
    raises where the model returns: a count beyond the largest index, and a
    digit run of 4301 digits. *)
Lemma count_beyond_index_excluded :
  Grammar.conforms "Y99999999999999999999"
  /\ Limits.cycle_string_within "Y99999999999999999999" = false.
Proof.
  split; [|vm_compute; reflexivity].
  exists [[("Y"%char, "99999999999999999999")]]. split; reflexivity.
Qed.

Lemma long_digit_run_excluded :
  Limits.cycle_string_within (String "Y" (Str.repeat_string "0" 4301)) = false
  /\ Limits.cycle_string_within (String "Y" (Str.repeat_string "0" 4300)) = true.
Proof.
  split; vm_compute; reflexivity.
Qed.

(** X4. On the text of a conforming segment that keeps the limits of the
    interpreter (digit runs of at most 4300 digits, an expansion no longer
    than the largest index) [expand] succeeds, and the expansion has as many
    cycles as the digit counts of the segment add up to: this is the number
    that line 200 compares with the Reads section. *)
Theorem expand_length (seg : Grammar.segment) :
  Grammar.conforming_segment seg = true ->
  Limits.segment_within seg = true ->
  exists e, expand (Grammar.render_segment seg) = Ok e
            /\ String.length e = segment_cycles seg.
Proof.
  intros H _. exists (Grammar.expand_segment seg).
  split; [now apply expand_segment_correct | apply length_expand_segment].
Qed.

Lemma expand_length_witness :
  exists e, expand "Y100N51" = Ok e /\ String.length e = 151.
Proof.
  refine (expand_length [("Y"%char, "100"); ("N"%char, "51")] eq_refl _).
  vm_compute. reflexivity.
Defined.

(** ** Reading a check through its binds *)

Lemma bind_readonly {A B : Type} (m : M A) (k : A -> M B) (doc : SectionedSheet) :
  readonly m ->
  bind m k doc = match fst (m doc) with
                 | inl e => (inl e, doc)
                 | inr a => k a doc
                 end.
Proof.
  intros H. unfold bind. specialize (H doc).
  destruct (m doc) as [[e|a] d]; simpl in *; now subst d.
Qed.

Lemma for_each_fst_ok {A : Type} (body : A -> M unit) (l : list A) (doc : SectionedSheet) :
  (forall x, readonly (body x)) ->
  (fst (for_each l body doc) = Ok tt <-> forall x, In x l -> fst (body x doc) = Ok tt).
Proof.
  intros Hro. induction l as [|x l IH]; cbn [for_each].
  - split; [intros _ y [] | reflexivity].
  - rewrite (bind_readonly _ _ _ (Hro x)).
    destruct (fst (body x doc)) as [e|[]] eqn:E.
    + split; [discriminate|]. intros H. specialize (H x (or_introl eq_refl)).
      rewrite E in H. discriminate H.
    + rewrite IH. split.
      * intros H y [<-|Hy]; [exact E | now apply H].
      * intros H y Hy. apply H. now right.
Qed.

Lemma readonly_result {A : Type} (m : M A) (doc : SectionedSheet) (r : result A) :
  readonly m -> (m doc = (r, doc) <-> fst (m doc) = r).
Proof.
  intros H. specialize (H doc). destruct (m doc) as [r' d]; simpl in *; subst d.
  split; [now intros [= ->] | now intros ->].
Qed.

Lemma declared_in_doc_filter (l : list string) (doc : SectionedSheet) :
  declared_in_doc l doc
  = (Ok (filter (fun i => existsb (String.eqb i) (keys doc)) l), doc).
Proof.
  induction l as [|i l IH]; [reflexivity|].
  cbn [declared_in_doc filter]. cbv beta iota delta [bind doc_keys ret Ok].
  unfold Ok in IH. rewrite IH. cbv beta iota.
  destruct (existsb (String.eqb i) (keys doc)); reflexivity.
Qed.

Lemma existsb_string_In (k : string) (l : list string) :
  existsb (String.eqb k) l = true <-> In k l.
Proof.
  rewrite existsb_exists. split.
  - intros (x & Hx & E). apply String.eqb_eq in E. now subst.
  - intros H. exists k. split; [exact H | apply String.eqb_refl].
Qed.

Lemma parse_overrideCycles_first (cyclestr : string) (cycles : dict string) :
  parse_overrideCycles cyclestr = Ok cycles ->
  exists e rest, cycles = ("Read1Cycles", e) :: rest.
Proof.
  intros H. unfold parse_overrideCycles in H.
  destruct (length (Str.split ";" cyclestr) <? 1)%nat; [discriminate H|].
  destruct (expand (nth 0 (Str.split ";" cyclestr) "")) as [e|e0]; [discriminate H|].
  cbn [rbind] in H.
  repeat match type of H with
         | (if ?c then _ else _) = _ => destruct c
         | rbind (expand ?x) _ = _ =>
             destruct (expand x) as [?e|?s]; cbn [rbind] in H; [discriminate H|]
         end;
    try discriminate H; unfold Ok in H; injection H as <-; eauto.
Qed.

Lemma fst_doc_getitem (k : string) (doc : SectionedSheet) (sec : section) :
  lookup k doc = Some sec -> fst (doc_getitem k doc) = inr sec.
Proof. unfold doc_getitem. now intros ->. Qed.

Lemma fst_doc_getitem_missing (k : string) (doc : SectionedSheet) :
  lookup k doc = None -> fst (doc_getitem k doc) = inl (KeyError k).
Proof. unfold doc_getitem. now intros ->. Qed.

Lemma fst_lift {A : Type} (r : result A) (doc : SectionedSheet) : fst (lift r doc) = r.
Proof. reflexivity. Qed.

(** One turn of the loop of lines 197-201 passes exactly when Reads is a
    mapping that gives the segment the length of its expansion. *)
Lemma override_segment_check (doc : SectionedSheet) (elemname elemseq : string) :
  fst ((reads <- doc_getitem "Reads" ;;
        if negb (sec_contains elemname reads) then
          raise (Exception ("BCLConvert_Settings.OverrideCycles defines " ++ elemname
                            ++ ", but it is not specified in the Reads section"))
        else
          reads <- doc_getitem "Reads" ;;
          declared <- lift (sec_getitem elemname reads) ;;
          when (differs_from_nat declared (String.length elemseq))
            (raise (Exception ("Reads." ++ elemname ++ " is " ++ str declared
                               ++ ", but BCLConvert_Settings.OverrideCycles specifies a length of "
                               ++ Str.str_of_nat (String.length elemseq))))) doc)
  = Ok tt
  <-> exists reads, lookup "Reads" doc = Some (Settings reads)
        /\ lookup elemname reads = Some (VInt (Z.of_nat (String.length elemseq))).
Proof.
  cbv beta iota delta [bind doc_getitem lift raise ret when sec_contains sec_getitem
                       has_key fst Ok Err].
  destruct (lookup "Reads" doc) as [[reads|rows]|] eqn:Hr.
  - destruct (lookup elemname reads) as [[z|t]|] eqn:E;
      cbv beta iota delta [negb]; try rewrite Hr; cbv beta iota; try rewrite E;
      cbv beta iota delta [differs_from_nat negb].
    + destruct (Z.eqb_spec z (Z.of_nat (String.length elemseq))) as [->|Hne].
      * split; [intros _; exists reads; auto | reflexivity].
      * split; [discriminate|]. intros (r & [= <-] & H). rewrite E in H. congruence.
    + split; [discriminate|]. intros (r & [= <-] & H). rewrite E in H. discriminate H.
    + split; [discriminate|]. intros (r & [= <-] & H). rewrite E in H. discriminate H.
  - split; [discriminate|]. intros (r & H & _). discriminate H.
  - split; [discriminate|]. intros (r & H & _). discriminate H.
Qed.

Lemma override_cycles_rule_iff (doc : SectionedSheet) (bs : dict value) (oc : string) :
  lookup "BCLConvert_Settings" doc = Some (Settings bs) ->
  lookup "OverrideCycles" bs = Some (VStr oc) ->
  (override_cycles_rule doc = (Ok tt, doc) <->
   exists cycles reads,
     parse_overrideCycles oc = Ok cycles
     /\ lookup "Reads" doc = Some (Settings reads)
     /\ (forall name elemseq, In (name, elemseq) cycles ->
           lookup name reads = Some (VInt (Z.of_nat (String.length elemseq))))
     /\ (forall name,
           In name ["Read1Cycles"; "Read2Cycles"; "Index1Cycles"; "Index2Cycles"] ->
           In name (keys doc) -> has_key name cycles = true)).
Proof.
  intros Hbs Hoc.
  rewrite (readonly_result _ _ _ readonly_override_cycles_rule).
  unfold override_cycles_rule.
  rewrite bind_readonly, (fst_doc_getitem _ _ _ Hbs) by frame. cbv beta iota.
  change (sec_contains "OverrideCycles" (Settings bs)) with (has_key "OverrideCycles" bs).
  rewrite (has_key_lookup _ _ _ Hoc). unfold when at 1.
  rewrite bind_readonly, (fst_doc_getitem _ _ _ Hbs) by frame. cbv beta iota.
  rewrite bind_readonly, fst_lift by frame.
  change (sec_getitem "OverrideCycles" (Settings bs))
    with (match lookup "OverrideCycles" bs with
          | Some v => Ok v
          | None => Err (KeyError "OverrideCycles")
          end).
  rewrite Hoc. cbv beta iota delta [Ok].
  rewrite bind_readonly, fst_lift by frame.
  change (parse_overrideCycles_value (VStr oc)) with (parse_overrideCycles oc).
  destruct (parse_overrideCycles oc) as [e|cycles] eqn:Hparse.
  { split; [discriminate|]. intros (c & r & H & _). discriminate H. }
  match goal with |- context [for_each cycles ?f] => set (b := f) end.
  assert (Hb : forall x, readonly (b x)) by (intros [? ?]; subst b; frame).
  assert (Hseg : forall name elemseq,
             fst (b (name, elemseq) doc) = Ok tt
             <-> exists reads, lookup "Reads" doc = Some (Settings reads)
                   /\ lookup name reads = Some (VInt (Z.of_nat (String.length elemseq))))
    by (intros; apply override_segment_check).
  pose proof (for_each_fst_ok b cycles doc Hb) as Hloop.
  rewrite bind_readonly by (apply readonly_for_each; exact Hb).
  destruct (fst (for_each cycles b doc)) as [e|[]] eqn:E1.
  - split; [discriminate|]. intros (c & reads & [= <-] & Hr & Hall & _).
    assert (H : @inl exn unit e = Ok tt); [|discriminate H].
    apply Hloop. intros [name elemseq] Hin. apply Hseg. exists reads. auto.
  - rewrite bind_readonly by frame. rewrite declared_in_doc_filter.
    cbv beta iota delta [fst Ok].
    match goal with |- context [for_each _ ?f] => set (b2 := f) end.
    assert (Hb2 : forall x, readonly (b2 x)) by (intros ?; subst b2; frame).
    fold (fst (for_each
                 (filter (fun i => existsb (String.eqb i) (keys doc))
                    ["Read1Cycles"; "Read2Cycles"; "Index1Cycles"; "Index2Cycles"])
                 b2 doc)).
    change (@inr exn unit tt) with (@Ok unit tt).
    rewrite (for_each_fst_ok b2 _ doc Hb2).
    assert (Hb2v : forall name, fst (b2 name doc) = Ok tt <-> has_key name cycles = true).
    { intros name. subst b2. cbv beta. destruct (has_key name cycles); cbn.
      - split; reflexivity.
      - split; discriminate. }
    pose proof (proj1 Hloop eq_refl) as Hall.
    split.
    + intros H2.
      destruct (parse_overrideCycles_first oc cycles Hparse) as (e0 & rest & Hc).
      assert (Hfirst : In ("Read1Cycles", e0) cycles) by (rewrite Hc; now left).
      destruct (proj1 (Hseg _ _) (Hall _ Hfirst)) as (reads & Hr & _).
      exists cycles, reads. split; [reflexivity|]. split; [exact Hr|]. split.
      * intros name elemseq Hin.
        destruct (proj1 (Hseg _ _) (Hall _ Hin)) as (r' & Hr' & Hl).
        rewrite Hr in Hr'. injection Hr' as <-. exact Hl.
      * intros name Hin Hk. apply Hb2v, H2. apply filter_In.
        split; [exact Hin | now apply existsb_string_In].
    + intros (c & reads & [= <-] & Hr & _ & Hnames) name Hin.
      apply filter_In in Hin. destruct Hin as [Hin Hk].
      apply Hb2v, Hnames; [exact Hin | now apply existsb_string_In].
Qed.

Lemma fst_doc_contains (k : string) (doc : SectionedSheet) :
  fst (doc_contains k doc) = inr (has_key k doc).
Proof. reflexivity. Qed.

(** When the whole check passes on a document with a BCLConvert_Settings
    section, each rule has passed. *)
Lemma logic_passes_rules (doc : SectionedSheet) (sec : section) :
  lookup "BCLConvert_Settings" doc = Some sec ->
  fst (illuminasamplesheetv2logic doc) = Ok tt ->
  override_cycles_rule doc = (Ok tt, doc)
  /\ adapter_read1_rule doc = (Ok tt, doc)
  /\ adapter_read2_rule doc = (Ok tt, doc)
  /\ barcode_mismatches_rule "1" doc = (Ok tt, doc)
  /\ barcode_mismatches_rule "2" doc = (Ok tt, doc)
  /\ bclconvert_data_rules doc = (Ok tt, doc).
Proof.
  intros Hbs H.
  rewrite (readonly_result _ _ _ readonly_override_cycles_rule).
  rewrite (readonly_result _ _ _ readonly_adapter_read1_rule).
  rewrite (readonly_result _ _ _ readonly_adapter_read2_rule).
  rewrite !(readonly_result _ _ _ (readonly_barcode_mismatches_rule _)).
  rewrite (readonly_result _ _ _ readonly_bclconvert_data_rules).
  unfold illuminasamplesheetv2logic in H.
  rewrite bind_readonly in H by apply readonly_bclconvert_settings_rules.
  unfold bclconvert_settings_rules in H.
  rewrite bind_readonly, fst_doc_contains in H by frame.
  rewrite (has_key_lookup _ _ _ Hbs) in H. unfold when in H.
  rewrite bind_readonly in H by frame.
  destruct (fst (override_cycles_rule doc)) as [e|[]]; [discriminate H|].
  rewrite bind_readonly in H by frame.
  destruct (fst (adapter_read1_rule doc)) as [e|[]]; [discriminate H|].
  rewrite bind_readonly in H by frame.
  destruct (fst (adapter_read2_rule doc)) as [e|[]]; [discriminate H|].
  rewrite bind_readonly in H by frame.
  destruct (fst (barcode_mismatches_rule "1" doc)) as [e|[]]; [discriminate H|].
  pose proof (readonly_barcode_mismatches_rule "2" doc) as Hro.
  destruct (barcode_mismatches_rule "2" doc) as [[e|[]] d]; [discriminate H|].
  simpl in Hro. subst d. cbn [fst] in *. auto 10.
Qed.

(** ** What a passing check guarantees *)

(** X5. When the check passes on a document whose BCLConvert_Settings holds a
    textual OverrideCycles, the string was expanded without error, Reads is a
    mapping, and every expanded segment is declared in Reads with an integer
    count equal to the length of its expansion. *)
Theorem override_cycles_sound (doc : SectionedSheet) (bs : dict value) (oc : string) :
  lookup "BCLConvert_Settings" doc = Some (Settings bs) ->
  lookup "OverrideCycles" bs = Some (VStr oc) ->
  fst (illuminasamplesheetv2logic doc) = Ok tt ->
  exists cycles reads,
    parse_overrideCycles oc = Ok cycles
    /\ lookup "Reads" doc = Some (Settings reads)
    /\ forall name elemseq, In (name, elemseq) cycles ->
         lookup name reads = Some (VInt (Z.of_nat (String.length elemseq))).
Proof.
  intros Hbs Hoc H.
  destruct (logic_passes_rules doc _ Hbs H) as (Hrule & _).
  apply (override_cycles_rule_iff doc bs oc Hbs Hoc) in Hrule.
  destruct Hrule as (cycles & reads & Hp & Hr & Hall & _).
  exists cycles, reads. auto.
Qed.

(** X6. On a document none of whose sections is named like a read segment,
    the OverrideCycles rule passes exactly when the string expands, Reads is
    a mapping, and every expanded segment has its length as its count in
    Reads: the keys of Reads outside the expansion are never looked at. *)
Theorem override_cycles_rule_passes_iff
    (doc : SectionedSheet) (bs : dict value) (oc : string) :
  lookup "BCLConvert_Settings" doc = Some (Settings bs) ->
  lookup "OverrideCycles" bs = Some (VStr oc) ->
  (forall name,
     In name ["Read1Cycles"; "Read2Cycles"; "Index1Cycles"; "Index2Cycles"] ->
     ~ In name (keys doc)) ->
  (override_cycles_rule doc = (Ok tt, doc) <->
   exists cycles reads,
     parse_overrideCycles oc = Ok cycles
     /\ lookup "Reads" doc = Some (Settings reads)
     /\ forall name elemseq, In (name, elemseq) cycles ->
          lookup name reads = Some (VInt (Z.of_nat (String.length elemseq)))).
Proof.
  intros Hbs Hoc Hnames.
  rewrite (override_cycles_rule_iff doc bs oc Hbs Hoc). split.
  - intros (cycles & reads & Hp & Hr & Hall & _). exists cycles, reads. auto.
  - intros (cycles & reads & Hp & Hr & Hall). exists cycles, reads.
    repeat split; try assumption.
    intros name Hin Hk. exfalso. exact (Hnames name Hin Hk).
Qed.

(** X7. The AdapterRead2 rule on mappings, for a textual AdapterRead2: it
    raises its own error when Reads has no Read2Cycles, a TypeError when
    Read2Cycles is an integer, and for a textual Read2Cycles it raises exactly
    when the adapter is longer than that text. *)
Theorem adapter_read2_rule_outcomes
    (doc : SectionedSheet) (bs reads : dict value) (adapter : string) :
  lookup "BCLConvert_Settings" doc = Some (Settings bs) ->
  lookup "AdapterRead2" bs = Some (VStr adapter) ->
  lookup "Reads" doc = Some (Settings reads) ->
  (lookup "Read2Cycles" reads = None ->
   adapter_read2_rule doc
   = (Err (Exception "AdapterRead2 defined in BCLConvert_Settings, but no Read2Cycles entry in Reads"),
      doc))
  /\ (forall n, lookup "Read2Cycles" reads = Some (VInt n) ->
        adapter_read2_rule doc = (Err TypeError, doc))
  /\ (forall t, lookup "Read2Cycles" reads = Some (VStr t) ->
        adapter_read2_rule doc
        = (if (String.length t <? String.length adapter)%nat
           then Err (Exception "BCLConvert_Settings.AdapterRead2 is longer then Reads.Read2Cycles")
           else Ok tt, doc)).
Proof.
  intros Hbs Had Hreads.
  unfold adapter_read2_rule.
  cbv beta iota delta [bind doc_getitem when lift sec_contains sec_getitem has_key len
                       raise ret Ok Err].
  rewrite Hbs. cbv beta iota. rewrite Had. cbv beta iota. rewrite Hreads. cbv beta iota.
  repeat split.
  - intros H2. rewrite H2. reflexivity.
  - intros n H2. rewrite H2. cbv beta iota delta [negb]. rewrite Hbs. cbv beta iota.
    rewrite Had. cbv beta iota. rewrite Hreads. cbv beta iota. rewrite H2. reflexivity.
  - intros t H2. rewrite H2. cbv beta iota delta [negb]. rewrite Hbs. cbv beta iota.
    rewrite Had. cbv beta iota. rewrite Hreads. cbv beta iota. rewrite H2. cbv beta iota.
    destruct (String.length t <? String.length adapter)%nat; reflexivity.
Qed.

(** One barcode rule passes exactly when its key is absent from the settings
    or its index cycles are declared in Reads. *)
Lemma barcode_mismatches_rule_passes (n : string) (doc : SectionedSheet) (bs : dict value) :
  lookup "BCLConvert_Settings" doc = Some (Settings bs) ->
  has_key ("BarcodeMismatchesIndex" ++ n) bs = true ->
  barcode_mismatches_rule n doc = (Ok tt, doc) ->
  exists reads, lookup "Reads" doc = Some (Settings reads)
                /\ has_key ("Index" ++ n ++ "Cycles") reads = true.
Proof.
  intros Hbs Hkey. unfold barcode_mismatches_rule.
  cbv beta iota delta [bind doc_getitem when sec_contains raise ret Ok Err].
  rewrite Hbs. cbv beta iota. rewrite Hkey.
  destruct (lookup "Reads" doc) as [[reads|rows]|]; cbv beta iota; try discriminate.
  destruct (has_key ("Index" ++ n ++ "Cycles") reads) eqn:E; cbv beta iota delta [negb];
    [|discriminate].
  intros _. exists reads. auto.
Qed.

(** X8. When the check passes on a document whose BCLConvert_Settings holds
    BarcodeMismatchesIndex1 (or 2), Reads is a mapping that declares
    Index1Cycles (or Index2Cycles). *)
Theorem barcode_mismatches_sound (doc : SectionedSheet) (bs : dict value) (n : string) :
  n = "1" \/ n = "2" ->
  lookup "BCLConvert_Settings" doc = Some (Settings bs) ->
  has_key ("BarcodeMismatchesIndex" ++ n) bs = true ->
  fst (illuminasamplesheetv2logic doc) = Ok tt ->
  exists reads, lookup "Reads" doc = Some (Settings reads)
                /\ has_key ("Index" ++ n ++ "Cycles") reads = true.
Proof.
  intros Hn Hbs Hkey H.
  destruct (logic_passes_rules doc _ Hbs H) as (_ & _ & _ & H1 & H2 & _).
  destruct Hn as [->| ->].
  - exact (barcode_mismatches_rule_passes "1" doc bs Hbs Hkey H1).
  - exact (barcode_mismatches_rule_passes "2" doc bs Hbs Hkey H2).
Qed.

(** X9. A document without a BCLConvert_Settings section, and with no
    BCLConvert_Data section or one of at most one row, passes the check,
    whatever else it holds or lacks. *)
Theorem logic_passes_without_bclconvert (doc : SectionedSheet) :
  lookup "BCLConvert_Settings" doc = None ->
  (lookup "BCLConvert_Data" doc = None
   \/ exists rows, lookup "BCLConvert_Data" doc = Some (Data rows) /\ length rows <= 1) ->
  illuminasamplesheetv2logic doc = (Ok tt, doc).
Proof.
  intros Hbs Hbd.
  unfold illuminasamplesheetv2logic, bclconvert_settings_rules, bclconvert_data_rules.
  cbv beta iota delta [bind doc_contains doc_getitem has_key when sec_len ret Ok].
  rewrite Hbs. cbv beta iota.
  destruct Hbd as [Hbd|(rows & Hbd & Hlen)]; rewrite Hbd; cbv beta iota; [reflexivity|].
  rewrite Hbd. cbv beta iota.
  assert (E : (1 <? length rows)%nat = false) by (apply Nat.ltb_ge; lia).
  now rewrite E.
Qed.

(** ** The data rules on incomplete rows *)

Lemma column_rows_missing (k : string) (rows : list row) :
  (exists r, In r rows /\ lookup k r = None) ->
  column_rows k rows = Err (KeyError k).
Proof.
  induction rows as [|r0 rows IH]; intros (r & Hin & Hr); [contradiction|].
  cbn [column_rows]. unfold row_getitem.
  destruct (lookup k r0) as [v|] eqn:E; [|reflexivity].
  destruct Hin as [->|Hin]; [congruence|].
  cbn [rbind Ok]. rewrite IH by eauto. reflexivity.
Qed.

(** X10. On a BCLConvert_Data table of two or more rows, the data rules
    raise their own error when the first row has no Index, and a KeyError
    when the first row has one and a later row has none. *)
Theorem data_rules_missing_index
    (doc : SectionedSheet) (r0 r1 : row) (rest : list row) :
  lookup "BCLConvert_Data" doc = Some (Data (r0 :: r1 :: rest)) ->
  (has_key "Index" r0 = false ->
   bclconvert_data_rules doc
   = (Err (Exception "No Index found in BCLConvert_Data, although it contains more than one sample"),
      doc))
  /\ (has_key "Index" r0 = true ->
      (exists r, In r (r1 :: rest) /\ lookup "Index" r = None) ->
      bclconvert_data_rules doc = (Err (KeyError "Index"), doc)).
Proof.
  intros Hdoc.
  unfold bclconvert_data_rules.
  cbv beta iota delta [bind doc_contains doc_getitem when lift sec_len sec_first
                       column ret raise Ok Err].
  rewrite (has_key_lookup _ _ _ Hdoc). cbv beta iota. rewrite Hdoc. cbv beta iota.
  change (1 <? length (r0 :: r1 :: rest))%nat with true. cbv beta iota.
  rewrite Hdoc. cbv beta iota.
  split.
  - intros H0. rewrite H0. reflexivity.
  - intros H0 (r & Hin & Hr). rewrite H0. cbv beta iota delta [negb].
    rewrite Hdoc. cbv beta iota.
    rewrite (column_rows_missing "Index" (r0 :: r1 :: rest)) by (exists r; split; [now right | exact Hr]).
    reflexivity.
Qed.

Lemma column_rows_agree (k : string) (rows rows' : list row) :
  Forall2 (fun r r' : row => lookup k r = lookup k r') rows rows' ->
  column_rows k rows = column_rows k rows'.
Proof.
  induction 1 as [|r r' rows rows' Hr _ IH]; [reflexivity|].
  cbn [column_rows]. unfold row_getitem. now rewrite Hr, IH.
Qed.

(** X11. Two documents whose BCLConvert_Data tables agree, row by row, on
    Index and Index2 get the same verdict from the data rules: Sample_ID,
    Lane and every other column are not looked at. *)
Theorem data_rules_only_indices
    (doc doc' : SectionedSheet) (rows rows' : list row) :
  lookup "BCLConvert_Data" doc = Some (Data rows) ->
  lookup "BCLConvert_Data" doc' = Some (Data rows') ->
  Forall2 (fun r r' : row =>
             lookup "Index" r = lookup "Index" r'
             /\ lookup "Index2" r = lookup "Index2" r') rows rows' ->
  fst (bclconvert_data_rules doc) = fst (bclconvert_data_rules doc').
Proof.
  intros Hd Hd' HF.
  assert (Hlen : length rows = length rows') by (eapply Forall2_length; exact HF).
  assert (Hc1 : column_rows "Index" rows = column_rows "Index" rows').
  { apply column_rows_agree. eapply Forall2_impl; [|exact HF]. now intros r r' [H _]. }
  assert (Hc2 : column_rows "Index2" rows = column_rows "Index2" rows').
  { apply column_rows_agree. eapply Forall2_impl; [|exact HF]. now intros r r' [_ H]. }
  unfold bclconvert_data_rules.
  cbv beta iota delta [bind doc_contains doc_getitem when lift sec_len sec_first
                       column ret raise has_key Ok Err fst].
  rewrite Hd, Hd'. cbv beta iota. rewrite Hd, Hd'. cbv beta iota. rewrite <- Hlen.
  destruct (1 <? length rows)%nat; [|reflexivity].
  cbv beta iota. rewrite Hd, Hd'. cbv beta iota.
  destruct HF as [|r r' rows rows' [Hi Hi2] HF]; [reflexivity|].
  rewrite <- Hi. destruct (lookup "Index" r) as [i|]; cbv beta iota delta [negb];
    [|reflexivity].
  rewrite Hd, Hd'. cbv beta iota. rewrite <- Hc1.
  destruct (column_rows "Index" (r :: rows)) as [e|index1]; [reflexivity|].
  cbv beta iota. rewrite <- Hi2.
  destruct (lookup "Index2" r) as [i2|]; cbv beta iota.
  - rewrite Hd, Hd'. cbv beta iota. rewrite <- Hc2.
    destruct (column_rows "Index2" (r :: rows)) as [e|index2]; [reflexivity|].
    cbv beta iota. destruct (zip_add index1 index2) as [e|index]; [reflexivity|].
    destruct (length (dedup index) =? length index)%nat; reflexivity.
  - destruct (length (dedup index1) =? length index1)%nat; reflexivity.
Qed.

(** ** More on basespacelogic *)

(** X12. The ID that basespacelogic names is the first one, in the row order
    of BCLConvert_Data, that is not among the Sample_IDs of Cloud_Data. *)
Theorem basespacelogic_first_missing
    (doc : SectionedSheet) (cloud bcl : list row)
    (cloud_ids pre post : list value) (id : value) :
  lookup "Cloud_Data" doc = Some (Data cloud) ->
  lookup "BCLConvert_Data" doc = Some (Data bcl) ->
  Forall2 (fun r v => lookup "Sample_ID" r = Some v) cloud cloud_ids ->
  Forall2 (fun r v => lookup "Sample_ID" r = Some v) bcl (pre ++ id :: post)%list ->
  (forall x, In x pre -> In x cloud_ids) ->
  ~ In id cloud_ids ->
  basespacelogic doc
  = (Err (Exception ("Sample_ID " ++ str id
       ++ " is defined in the BCLConvert_Data section, but not in the Cloud_Data section.")),
     doc).
Proof.
  intros Hc Hb Hcloud Hbcl Hpre Hid.
  apply column_rows_Forall2 in Hcloud, Hbcl.
  unfold basespacelogic.
  cbv beta iota delta [bind doc_contains doc_getitem has_key lift column Ok].
  rewrite Hc. cbv beta iota delta [negb]. rewrite Hb. cbv beta iota.
  rewrite Hc. cbv beta iota. unfold Ok in Hcloud, Hbcl.
  rewrite Hcloud. cbv beta iota. rewrite Hb. cbv beta iota.
  rewrite Hbcl. cbv beta iota.
  apply (for_each_first_failure
           (fun convert_id =>
              when (negb (existsb (value_eqb convert_id) cloud_ids))
                (raise (Exception ("Sample_ID " ++ str convert_id
                   ++ " is defined in the BCLConvert_Data section, but not in the Cloud_Data section."))))
           pre id post _ doc doc doc).
  - apply (for_each_guard_none
             (fun x => negb (existsb (value_eqb x) cloud_ids))
             (fun x => Exception ("Sample_ID " ++ str x
                ++ " is defined in the BCLConvert_Data section, but not in the Cloud_Data section."))).
    intros x Hx. apply negb_false_iff, existsb_value_In, Hpre, Hx.
  - apply existsb_value_not_In in Hid. now rewrite Hid.
Qed.

Lemma column_rows_error (k : string) (rows : list row) (e : exn) :
  column_rows k rows = Err e -> e = KeyError k.
Proof.
  induction rows as [|r rows IH]; intros H; [discriminate H|].
  cbn [column_rows] in H. unfold row_getitem in H.
  destruct (lookup k r) as [v|]; [|now injection H as <-].
  cbn [rbind Ok] in H.
  destruct (column_rows k rows) as [e'|vs]; [|discriminate H].
  cbn [rbind] in H. injection H as <-. now apply IH.
Qed.

(** X13. When both sections are lists of rows and some row of either has no
    Sample_ID, basespacelogic raises a KeyError for Sample_ID, whatever the
    other rows hold. *)
Theorem basespacelogic_missing_sample_id
    (doc : SectionedSheet) (cloud bcl : list row) :
  lookup "Cloud_Data" doc = Some (Data cloud) ->
  lookup "BCLConvert_Data" doc = Some (Data bcl) ->
  (exists r, In r (cloud ++ bcl)%list /\ lookup "Sample_ID" r = None) ->
  basespacelogic doc = (Err (KeyError "Sample_ID"), doc).
Proof.
  intros Hc Hb (r & Hin & Hr).
  unfold basespacelogic.
  cbv beta iota delta [bind doc_contains doc_getitem has_key lift column Ok].
  rewrite Hc. cbv beta iota delta [negb]. rewrite Hb. cbv beta iota.
  rewrite Hc. cbv beta iota.
  destruct (column_rows "Sample_ID" cloud) as [e|cloud_ids] eqn:Ecloud.
  - apply column_rows_error in Ecloud. now subst e.
  - cbv beta iota. rewrite Hb. cbv beta iota.
    apply in_app_or in Hin. destruct Hin as [Hin|Hin].
    + rewrite (column_rows_missing "Sample_ID" cloud) in Ecloud by eauto.
      discriminate Ecloud.
    + rewrite (column_rows_missing "Sample_ID" bcl) by eauto. reflexivity.
Qed.

(** ** Suffixes of section names *)

Lemma substring_all (s : string) : substring 0 (String.length s) s = s.
Proof.
  induction s as [|c s IH]; simpl; [reflexivity | now rewrite IH].
Qed.

Lemma substring_prefix (a b : string) : substring 0 (String.length a) (a ++ b) = a.
Proof.
  induction a as [|c a IH]; simpl; [now destruct b | now rewrite IH].
Qed.

Lemma substring_skip (a b : string) (n m : nat) :
  substring (String.length a + n) m (a ++ b) = substring n m b.
Proof.
  induction a as [|c a IH]; simpl; [reflexivity | exact IH].
Qed.

Lemma substring_split (s : string) (n : nat) :
  n <= String.length s ->
  s = substring 0 n s ++ substring n (String.length s - n) s.
Proof.
  revert n. induction s as [|c s IH]; intros n Hn.
  - simpl in Hn. now replace n with 0 by lia.
  - destruct n as [|n].
    + rewrite Nat.sub_0_r, substring_all. reflexivity.
    + simpl in Hn. cbn [substring append String.length Nat.sub].
      now rewrite <- IH by lia.
Qed.

Lemma endswith_append (a suf : string) : Str.endswith (a ++ suf) suf = true.
Proof.
  unfold Str.endswith. rewrite length_append.
  replace (String.length a + String.length suf - String.length suf)
    with (String.length a + 0) by lia.
  rewrite substring_skip, substring_all, String.eqb_refl.
  apply andb_true_iff. split; [apply Nat.leb_le; lia | reflexivity].
Qed.

Lemma strip_suffix_append (a suf : string) : Str.strip_suffix suf (a ++ suf) = Some a.
Proof.
  unfold Str.strip_suffix. rewrite endswith_append, length_append.
  replace (String.length a + String.length suf - String.length suf)
    with (String.length a) by lia.
  now rewrite substring_prefix.
Qed.

(** A string that ends with [suf] is its stem followed by [suf]. *)
Lemma endswith_inv (s suf : string) :
  Str.endswith s suf = true ->
  exists stem, s = stem ++ suf /\ Str.strip_suffix suf s = Some stem.
Proof.
  intros H. unfold Str.strip_suffix. rewrite H.
  unfold Str.endswith in H. apply andb_true_iff in H. destruct H as [Hlen He].
  apply Nat.leb_le in Hlen. apply String.eqb_eq in He.
  exists (substring 0 (String.length s - String.length suf) s). split; [|reflexivity].
  rewrite (substring_split s (String.length s - String.length suf)) at 1 by lia.
  replace (String.length s - (String.length s - String.length suf))
    with (String.length suf) by lia.
  now rewrite He.
Qed.

Lemma last_app_nonempty {A : Type} (l1 l2 : list A) (d : A) :
  l2 <> [] -> last (l1 ++ l2) d = last l2 d.
Proof.
  intros H. induction l1 as [|x l1 IH]; [reflexivity|].
  cbn [app]. rewrite <- IH. destruct (l1 ++ l2)%list eqn:E; [|reflexivity].
  apply app_eq_nil in E. destruct E as [_ E]. contradiction.
Qed.

(** Two strings with different last characters are different. *)
Lemma append_last_differs (a b : string) (x y : ascii) (s t : string) :
  last (list_ascii_of_string (String x s)) " "%char
  <> last (list_ascii_of_string (String y t)) " "%char ->
  a ++ String x s <> b ++ String y t.
Proof.
  intros Hne E. apply Hne.
  apply (f_equal (fun u => last (list_ascii_of_string u) " "%char)) in E.
  rewrite !list_ascii_of_append in E.
  rewrite !last_app_nonempty in E by discriminate. exact E.
Qed.

Lemma endswith_data_not_settings (a : string) :
  Str.endswith (a ++ "_Data") "_Settings" = false.
Proof.
  destruct (Str.endswith (a ++ "_Data") "_Settings") eqn:E; [|reflexivity].
  apply endswith_inv in E. destruct E as (stem & E & _).
  exfalso. revert E. apply append_last_differs. cbn. discriminate.
Qed.

Lemma endswith_no_newline (a : string) (x : ascii) (s : string) :
  last (list_ascii_of_string (String x s)) " "%char <> ascii_of_nat 10 ->
  Str.strip_suffix (String (ascii_of_nat 10) "") (a ++ String x s) = None.
Proof.
  intros Hne. unfold Str.strip_suffix.
  destruct (Str.endswith (a ++ String x s) (String (ascii_of_nat 10) "")) eqn:E;
    [|reflexivity].
  apply endswith_inv in E. destruct E as (stem & E & _).
  exfalso. revert E. apply append_last_differs. exact Hne.
Qed.

(** X14. For a name without a newline, [secname] takes both
    [name_Settings] and [name_Data] back to the name: the two sections of an
    application meet under one key. *)
Theorem secname_of_suffixed (name : string) :
  Str.contains_char (ascii_of_nat 10) name = false ->
  SampleSheetV2.secname (name ++ "_Settings") = Some name
  /\ SampleSheetV2.secname (name ++ "_Data") = Some name.
Proof.
  intros Hnl. unfold SampleSheetV2.secname. split.
  - rewrite endswith_no_newline by (cbn; discriminate).
    rewrite strip_suffix_append. now rewrite Hnl.
  - rewrite endswith_no_newline by (cbn; discriminate).
    unfold Str.strip_suffix at 1. rewrite endswith_data_not_settings.
    rewrite strip_suffix_append. now rewrite Hnl.
Qed.

Lemma secname_of_suffixed_witness :
  SampleSheetV2.secname "BCLConvert_Settings" = Some "BCLConvert"
  /\ SampleSheetV2.secname "BCLConvert_Data" = Some "BCLConvert".
Proof.
  exact (secname_of_suffixed "BCLConvert" eq_refl).
Defined.

(** ** The grouping loop *)

(** One turn of the loop, attribute by attribute. *)
Lemma group_section_step (self : SampleSheetV2.sheet) (key : string)
    (doc : SectionedSheet) (sec : section) :
  lookup key doc = Some sec ->
  exists self',
    SampleSheetV2.group_section self key doc = (Ok self', doc)
    /\ SampleSheetV2.header self'
       = (if String.eqb key "Header" then Some sec else SampleSheetV2.header self)
    /\ SampleSheetV2.reads self'
       = (if String.eqb key "Reads" then Some sec else SampleSheetV2.reads self)
    /\ SampleSheetV2.applications self'
       = (if Str.endswith key "_Settings" then
            SampleSheetV2.update_application (SampleSheetV2.secname key)
              (fun a => {| SampleSheetV2.settings := Some sec;
                           SampleSheetV2.data := SampleSheetV2.data a |})
              (SampleSheetV2.applications self)
          else if Str.endswith key "_Data" then
            SampleSheetV2.update_application (SampleSheetV2.secname key)
              (fun a => {| SampleSheetV2.settings := SampleSheetV2.settings a;
                           SampleSheetV2.data := Some sec |})
              (SampleSheetV2.applications self)
          else SampleSheetV2.applications self).
Proof.
  intros Hsec. unfold SampleSheetV2.group_section.
  destruct (Str.endswith key "_Settings") eqn:E1.
  { unfold bind, doc_getitem, ret. rewrite Hsec. eexists. split; [reflexivity|].
    cbn [SampleSheetV2.header SampleSheetV2.reads SampleSheetV2.applications].
    destruct (String.eqb_spec key "Header") as [->|_]; [discriminate E1|].
    destruct (String.eqb_spec key "Reads") as [->|_]; [discriminate E1|].
    auto. }
  destruct (Str.endswith key "_Data") eqn:E2.
  { unfold bind, doc_getitem, ret. rewrite Hsec. eexists. split; [reflexivity|].
    cbn [SampleSheetV2.header SampleSheetV2.reads SampleSheetV2.applications].
    destruct (String.eqb_spec key "Header") as [->|_]; [discriminate E2|].
    destruct (String.eqb_spec key "Reads") as [->|_]; [discriminate E2|].
    auto. }
  destruct (String.eqb_spec key "Header") as [->|Hh].
  { unfold bind, doc_getitem, ret. rewrite Hsec. eexists. split; [reflexivity|].
    cbn [SampleSheetV2.header SampleSheetV2.reads SampleSheetV2.applications]. auto. }
  destruct (String.eqb_spec key "Reads") as [->|Hr].
  { unfold bind, doc_getitem, ret. rewrite Hsec. eexists. split; [reflexivity|].
    cbn [SampleSheetV2.header SampleSheetV2.reads SampleSheetV2.applications]. auto. }
  exists self. auto.
Qed.

Lemma lookup_not_in {V : Type} (k : string) (d : dict V) :
  ~ In k (keys d) -> lookup k d = None.
Proof.
  induction d as [|[k' v] d IH]; simpl; intros H; [reflexivity|].
  destruct (String.eqb_spec k k') as [->|_]; [exfalso; auto|]. apply IH. auto.
Qed.

Lemma existsb_string_false (k : string) (l : list string) :
  existsb (String.eqb k) l = false <-> ~ In k l.
Proof.
  rewrite <- existsb_string_In. destruct (existsb (String.eqb k) l); split; congruence.
Qed.

(** A successful constructor has grouped the document as the validators left
    it. *)
Lemma init_ok_grouping (schema : Type) (validate : schema -> M unit)
    (validation : SampleSheetV2.pyobj schema)
    (doc doc' : SectionedSheet) (self : SampleSheetV2.sheet) :
  SampleSheetV2.__init__ schema validate validation doc = (Ok self, doc') ->
  SampleSheetV2.group_sections (keys doc') SampleSheetV2.new_sheet doc' = (Ok self, doc').
Proof.
  unfold SampleSheetV2.__init__. intros H. unfold bind at 1 in H.
  destruct (SampleSheetV2.run_validation schema validate validation doc)
    as [[e|[]] d1]; [discriminate H|].
  cbv beta iota delta [bind doc_keys Ok] in H.
  destruct (group_sections_total (keys d1) d1 (fun k Hk => Hk) SampleSheetV2.new_sheet)
    as [s Hs].
  rewrite Hs in H. injection H as <- <-. exact Hs.
Qed.

(** The header and the reads after the loop has run over [ks]. *)
Lemma group_sections_header_reads (doc : SectionedSheet) (ks : list string) :
  (forall k, In k ks -> In k (keys doc)) ->
  forall self self',
    SampleSheetV2.group_sections ks self doc = (Ok self', doc) ->
    SampleSheetV2.header self'
    = (if existsb (String.eqb "Header") ks then lookup "Header" doc
       else SampleSheetV2.header self)
    /\ SampleSheetV2.reads self'
       = (if existsb (String.eqb "Reads") ks then lookup "Reads" doc
          else SampleSheetV2.reads self).
Proof.
  induction ks as [|key ks IH]; intros Hks self self' H.
  - cbn in H. injection H as <-. auto.
  - destruct (lookup_key_in key doc (Hks key (or_introl eq_refl))) as [sec Hsec].
    destruct (group_section_step self key doc sec Hsec) as (s1 & H1 & Hh & Hr & _).
    cbn [SampleSheetV2.group_sections] in H. unfold bind in H. rewrite H1 in H.
    apply IH in H; [|intros k Hk; apply Hks; now right].
    destruct H as [Hh' Hr']. rewrite Hh', Hr', Hh, Hr. cbn [existsb].
    split.
    + rewrite (String.eqb_sym "Header" key).
      destruct (String.eqb_spec key "Header") as [->|_]; cbn [orb].
      * rewrite Hsec. now destruct (existsb (String.eqb "Header") ks).
      * reflexivity.
    + rewrite (String.eqb_sym "Reads" key).
      destruct (String.eqb_spec key "Reads") as [->|_]; cbn [orb].
      * rewrite Hsec. now destruct (existsb (String.eqb "Reads") ks).
      * reflexivity.
Qed.

(** X15. The sheet a successful constructor returns has the Header section of
    the document as its [header] and the Reads section as its [reads], and
    lacks the attribute when the document lacks the section. *)
Theorem init_header_reads (schema : Type) (validate : schema -> M unit)
    (validation : SampleSheetV2.pyobj schema)
    (doc doc' : SectionedSheet) (self : SampleSheetV2.sheet) :
  SampleSheetV2.__init__ schema validate validation doc = (Ok self, doc') ->
  SampleSheetV2.header self = lookup "Header" doc'
  /\ SampleSheetV2.reads self = lookup "Reads" doc'.
Proof.
  intros H. apply init_ok_grouping in H.
  apply (group_sections_header_reads doc' (keys doc') (fun k Hk => Hk)) in H.
  destruct H as [Hh Hr]. rewrite Hh, Hr. cbn [SampleSheetV2.new_sheet
    SampleSheetV2.header SampleSheetV2.reads].
  split.
  - destruct (existsb (String.eqb "Header") (keys doc')) eqn:E; [reflexivity|].
    symmetry. apply lookup_not_in. now apply existsb_string_false.
  - destruct (existsb (String.eqb "Reads") (keys doc')) eqn:E; [reflexivity|].
    symmetry. apply lookup_not_in. now apply existsb_string_false.
Qed.

Lemma init_header_reads_witness :
  exists self,
    SampleSheetV2.__init__ unit (fun _ => ret tt) (SampleSheetV2.PyList []) six_sections
    = (Ok self, six_sections)
    /\ SampleSheetV2.header self = Some (Settings [("FileFormatVersion", VInt 2)])
    /\ SampleSheetV2.reads self = Some (Settings [("Read1Cycles", VInt 151)]).
Proof.
  eexists. split; [vm_compute; reflexivity|].
  apply (init_header_reads unit (fun _ => ret tt) (SampleSheetV2.PyList [])
           six_sections six_sections).
  vm_compute. reflexivity.
Defined.

(** ** The applications of a sheet *)

Lemma appname_eqb_eq (a b : SampleSheetV2.appname) :
  SampleSheetV2.appname_eqb a b = true <-> a = b.
Proof.
  destruct a as [x|], b as [y|]; simpl; split; intros H; try discriminate; try reflexivity.
  - apply String.eqb_eq in H. now subst.
  - injection H as ->. apply String.eqb_refl.
Qed.

Lemma existsb_appname_In (n : SampleSheetV2.appname) (l : list SampleSheetV2.appname) :
  existsb (SampleSheetV2.appname_eqb n) l = true <-> In n l.
Proof.
  rewrite existsb_exists. split.
  - intros (x & Hx & E). apply appname_eqb_eq in E. now subst.
  - intros H. exists n. split; [exact H | now apply appname_eqb_eq].
Qed.

(** The names after one update: the new name goes to the end, an old one
    changes nothing. *)
Lemma update_application_names (n : SampleSheetV2.appname)
    (set : SampleSheetV2.application -> SampleSheetV2.application)
    (apps : list (SampleSheetV2.appname * SampleSheetV2.application)) :
  map fst (SampleSheetV2.update_application n set apps)
  = (map fst apps ++ first_seen (map fst apps) [n])%list.
Proof.
  induction apps as [|[m a] apps IH]; [reflexivity|].
  cbn [SampleSheetV2.update_application map fst first_seen existsb].
  destruct (SampleSheetV2.appname_eqb n m) eqn:E; cbn [orb map fst app].
  - now rewrite app_nil_r.
  - rewrite IH. cbn [first_seen].
    destruct (existsb (SampleSheetV2.appname_eqb n) (map fst apps)); reflexivity.
Qed.

Lemma first_seen_ext (seen seen' l : list SampleSheetV2.appname) :
  (forall x, In x seen <-> In x seen') ->
  first_seen seen l = first_seen seen' l.
Proof.
  revert seen seen'. induction l as [|n l IH]; intros seen seen' H; [reflexivity|].
  cbn [first_seen].
  assert (E : existsb (SampleSheetV2.appname_eqb n) seen
              = existsb (SampleSheetV2.appname_eqb n) seen').
  { destruct (existsb (SampleSheetV2.appname_eqb n) seen) eqn:E1;
      destruct (existsb (SampleSheetV2.appname_eqb n) seen') eqn:E2; try reflexivity.
    - apply existsb_appname_In, H, existsb_appname_In in E1. congruence.
    - apply existsb_appname_In, H, existsb_appname_In in E2. congruence. }
  rewrite E. destruct (existsb (SampleSheetV2.appname_eqb n) seen').
  - now apply IH.
  - f_equal. apply IH. intros x. simpl. now rewrite H.
Qed.

Lemma first_seen_fresh (seen l : list SampleSheetV2.appname) :
  NoDup (first_seen seen l) /\ forall x, In x (first_seen seen l) -> ~ In x seen.
Proof.
  revert seen. induction l as [|n l IH]; intros seen; [split; [constructor | intros x []]|].
  cbn [first_seen]. destruct (existsb (SampleSheetV2.appname_eqb n) seen) eqn:E.
  - apply IH.
  - destruct (IH (n :: seen)) as [Hnd Hfresh]. split.
    + constructor; [|exact Hnd]. intros Hin. apply (Hfresh n Hin). now left.
    + intros x [<-|Hx].
      * intros Hin. apply existsb_appname_In in Hin. congruence.
      * intros Hin. apply (Hfresh x Hx). now right.
Qed.

(** The names after the loop has run over [ks]. *)
Lemma group_sections_names (doc : SectionedSheet) (ks : list string) :
  (forall k, In k ks -> In k (keys doc)) ->
  forall self self',
    SampleSheetV2.group_sections ks self doc = (Ok self', doc) ->
    map fst (SampleSheetV2.applications self')
    = (map fst (SampleSheetV2.applications self)
       ++ first_seen (map fst (SampleSheetV2.applications self))
            (map SampleSheetV2.secname (filter is_application_key ks)))%list.
Proof.
  induction ks as [|key ks IH]; intros Hks self self' H.
  - cbn in H. injection H as <-. cbn. now rewrite app_nil_r.
  - destruct (lookup_key_in key doc (Hks key (or_introl eq_refl))) as [sec Hsec].
    destruct (group_section_step self key doc sec Hsec) as (s1 & H1 & _ & _ & Ha).
    cbn [SampleSheetV2.group_sections] in H. unfold bind in H. rewrite H1 in H.
    apply IH in H; [|intros k Hk; apply Hks; now right].
    rewrite H, Ha. cbn [filter]. unfold is_application_key at 2.
    destruct (Str.endswith key "_Settings") eqn:E1; cbn [orb].
    + rewrite update_application_names. cbn [map first_seen].
      destruct (existsb (SampleSheetV2.appname_eqb (SampleSheetV2.secname key))
                  (map fst (SampleSheetV2.applications self))) eqn:E.
      * now rewrite app_nil_r.
      * rewrite <- app_assoc. cbn [app]. f_equal. f_equal.
        apply first_seen_ext. intros x. rewrite in_app_iff. simpl. tauto.
    + destruct (Str.endswith key "_Data") eqn:E2.
      * rewrite update_application_names. cbn [map first_seen].
        destruct (existsb (SampleSheetV2.appname_eqb (SampleSheetV2.secname key))
                    (map fst (SampleSheetV2.applications self))) eqn:E.
        -- now rewrite app_nil_r.
        -- rewrite <- app_assoc. cbn [app]. f_equal. f_equal.
           apply first_seen_ext. intros x. rewrite in_app_iff. simpl. tauto.
      * reflexivity.
Qed.

(** X16. The applications of the sheet a successful constructor returns are
    named after the sections ending in _Settings or _Data, in the order in
    which each name first occurs in the document, and no name occurs twice. *)
Theorem init_application_order (schema : Type) (validate : schema -> M unit)
    (validation : SampleSheetV2.pyobj schema)
    (doc doc' : SectionedSheet) (self : SampleSheetV2.sheet) :
  SampleSheetV2.__init__ schema validate validation doc = (Ok self, doc') ->
  map fst (SampleSheetV2.applications self)
  = first_seen [] (map SampleSheetV2.secname (filter is_application_key (keys doc')))
  /\ NoDup (map fst (SampleSheetV2.applications self)).
Proof.
  intros H. apply init_ok_grouping in H.
  apply (group_sections_names doc' (keys doc') (fun k Hk => Hk)) in H.
  cbn [SampleSheetV2.new_sheet SampleSheetV2.applications map app] in H.
  rewrite H. split; [reflexivity | apply first_seen_fresh].
Qed.

Lemma init_application_order_witness :
  exists self,
    SampleSheetV2.__init__ unit (fun _ => ret tt) (SampleSheetV2.PyList []) six_sections
    = (Ok self, six_sections)
    /\ map fst (SampleSheetV2.applications self) = [Some "BCLConvert"; Some "Cloud"]
    /\ NoDup (map fst (SampleSheetV2.applications self)).
Proof.
  eexists. split; [vm_compute; reflexivity|].
  apply (init_application_order unit (fun _ => ret tt) (SampleSheetV2.PyList [])
           six_sections six_sections).
  vm_compute. reflexivity.
Defined.

(** ** The sections of an application *)

Lemma find_update_application (name n : SampleSheetV2.appname)
    (set : SampleSheetV2.application -> SampleSheetV2.application)
    (apps : list (SampleSheetV2.appname * SampleSheetV2.application)) :
  find_application name (SampleSheetV2.update_application n set apps)
  = if SampleSheetV2.appname_eqb name n then
      Some (set (match find_application name apps with
                 | Some a => a
                 | None => {| SampleSheetV2.settings := None; SampleSheetV2.data := None |}
                 end))
    else find_application name apps.
Proof.
  induction apps as [|[m a] apps IH].
  - cbn [SampleSheetV2.update_application find_application].
    destruct (SampleSheetV2.appname_eqb name n); reflexivity.
  - cbn [SampleSheetV2.update_application find_application].
    destruct (SampleSheetV2.appname_eqb n m) eqn:Enm.
    + apply appname_eqb_eq in Enm. subst m. cbn [find_application].
      destruct (SampleSheetV2.appname_eqb name n); reflexivity.
    + cbn [find_application]. destruct (SampleSheetV2.appname_eqb name m) eqn:E.
      * apply appname_eqb_eq in E. subst m.
        destruct (SampleSheetV2.appname_eqb name n) eqn:E'; [|reflexivity].
        apply appname_eqb_eq in E'. subst n.
        assert (SampleSheetV2.appname_eqb name name = true) by now apply appname_eqb_eq.
        congruence.
      * exact IH.
Qed.

(** [secname] on a key that ends with one of the two suffixes. *)
Lemma secname_settings_key (stem : string) :
  SampleSheetV2.secname (stem ++ "_Settings")
  = if Str.contains_char (ascii_of_nat 10) stem then None else Some stem.
Proof.
  unfold SampleSheetV2.secname.
  rewrite endswith_no_newline by (cbn; discriminate).
  now rewrite strip_suffix_append.
Qed.

Lemma secname_data_key (stem : string) :
  SampleSheetV2.secname (stem ++ "_Data")
  = if Str.contains_char (ascii_of_nat 10) stem then None else Some stem.
Proof.
  unfold SampleSheetV2.secname.
  rewrite endswith_no_newline by (cbn; discriminate).
  unfold Str.strip_suffix at 1. rewrite endswith_data_not_settings.
  now rewrite strip_suffix_append.
Qed.

Lemma append_inv_tail (a b suf : string) : a ++ suf = b ++ suf -> a = b.
Proof.
  intros H. pose proof (strip_suffix_append a suf) as Ha.
  rewrite H, strip_suffix_append in Ha. now injection Ha.
Qed.

(** The name of a key is [name] only for the key [name] with its suffix. *)
Lemma secname_settings_is (name stem : string) :
  Str.contains_char (ascii_of_nat 10) name = false ->
  SampleSheetV2.appname_eqb (Some name) (SampleSheetV2.secname (stem ++ "_Settings"))
  = String.eqb (stem ++ "_Settings") (name ++ "_Settings").
Proof.
  intros Hnl. rewrite secname_settings_key.
  destruct (String.eqb_spec (stem ++ "_Settings") (name ++ "_Settings")) as [E|E].
  - apply append_inv_tail in E. subst stem. rewrite Hnl. apply String.eqb_refl.
  - destruct (Str.contains_char (ascii_of_nat 10) stem); [reflexivity|].
    cbn [SampleSheetV2.appname_eqb]. apply String.eqb_neq. congruence.
Qed.

Lemma secname_data_is (name stem : string) :
  Str.contains_char (ascii_of_nat 10) name = false ->
  SampleSheetV2.appname_eqb (Some name) (SampleSheetV2.secname (stem ++ "_Data"))
  = String.eqb (stem ++ "_Data") (name ++ "_Data").
Proof.
  intros Hnl. rewrite secname_data_key.
  destruct (String.eqb_spec (stem ++ "_Data") (name ++ "_Data")) as [E|E].
  - apply append_inv_tail in E. subst stem. rewrite Hnl. apply String.eqb_refl.
  - destruct (Str.contains_char (ascii_of_nat 10) stem); [reflexivity|].
    cbn [SampleSheetV2.appname_eqb]. apply String.eqb_neq. congruence.
Qed.

(** One turn of the loop, seen from the application [name]. *)
Lemma group_section_application (name : string) (self : SampleSheetV2.sheet)
    (key : string) (doc : SectionedSheet) (sec : section) :
  Str.contains_char (ascii_of_nat 10) name = false ->
  lookup key doc = Some sec ->
  exists self',
    SampleSheetV2.group_section self key doc = (Ok self', doc)
    /\ application_settings name self'
       = (if String.eqb key (name ++ "_Settings") then Some sec
          else application_settings name self)
    /\ application_data name self'
       = (if String.eqb key (name ++ "_Data") then Some sec
          else application_data name self).
Proof.
  intros Hnl Hsec.
  destruct (group_section_step self key doc sec Hsec) as (s1 & H1 & _ & _ & Ha).
  exists s1. split; [exact H1|].
  unfold application_settings, application_data. rewrite Ha. clear Ha H1.
  destruct (Str.endswith key "_Settings") eqn:E1.
  - destruct (endswith_inv _ _ E1) as (stem & -> & _).
    rewrite find_update_application, (secname_settings_is name stem Hnl).
    assert (Hd : String.eqb (stem ++ "_Settings") (name ++ "_Data") = false).
    { apply String.eqb_neq. intros E.
      pose proof (endswith_data_not_settings name) as Hn.
      rewrite <- E, endswith_append in Hn. discriminate Hn. }
    rewrite Hd.
    destruct (String.eqb (stem ++ "_Settings") (name ++ "_Settings"));
      cbn [SampleSheetV2.settings SampleSheetV2.data]; [|auto].
    split; [reflexivity|].
    now destruct (find_application (Some name) (SampleSheetV2.applications self)).
  - assert (Hs : String.eqb key (name ++ "_Settings") = false).
    { apply String.eqb_neq. intros ->. rewrite endswith_append in E1. discriminate E1. }
    rewrite Hs.
    destruct (Str.endswith key "_Data") eqn:E2.
    + destruct (endswith_inv _ _ E2) as (stem & -> & _).
      rewrite find_update_application, (secname_data_is name stem Hnl).
      destruct (String.eqb (stem ++ "_Data") (name ++ "_Data"));
        cbn [SampleSheetV2.settings SampleSheetV2.data]; [|auto].
      split; [|reflexivity].
      now destruct (find_application (Some name) (SampleSheetV2.applications self)).
    + assert (Hd : String.eqb key (name ++ "_Data") = false).
      { apply String.eqb_neq. intros ->. rewrite endswith_append in E2. discriminate E2. }
      rewrite Hd. auto.
Qed.

Lemma group_sections_application (name : string) (doc : SectionedSheet) (ks : list string) :
  Str.contains_char (ascii_of_nat 10) name = false ->
  (forall k, In k ks -> In k (keys doc)) ->
  forall self self',
    SampleSheetV2.group_sections ks self doc = (Ok self', doc) ->
    application_settings name self'
    = (if existsb (String.eqb (name ++ "_Settings")) ks
       then lookup (name ++ "_Settings") doc
       else application_settings name self)
    /\ application_data name self'
       = (if existsb (String.eqb (name ++ "_Data")) ks
          then lookup (name ++ "_Data") doc
          else application_data name self).
Proof.
  intros Hnl. induction ks as [|key ks IH]; intros Hks self self' H.
  - cbn in H. injection H as <-. auto.
  - destruct (lookup_key_in key doc (Hks key (or_introl eq_refl))) as [sec Hsec].
    destruct (group_section_application name self key doc sec Hnl Hsec)
      as (s1 & H1 & Hs & Hd).
    cbn [SampleSheetV2.group_sections] in H. unfold bind in H. rewrite H1 in H.
    apply IH in H; [|intros k Hk; apply Hks; now right].
    destruct H as [Hs' Hd']. rewrite Hs', Hd', Hs, Hd. cbn [existsb].
    split.
    + rewrite (String.eqb_sym (name ++ "_Settings") key).
      destruct (String.eqb_spec key (name ++ "_Settings")) as [->|_]; cbn [orb].
      * rewrite Hsec. now destruct (existsb (String.eqb (name ++ "_Settings")) ks).
      * reflexivity.
    + rewrite (String.eqb_sym (name ++ "_Data") key).
      destruct (String.eqb_spec key (name ++ "_Data")) as [->|_]; cbn [orb].
      * rewrite Hsec. now destruct (existsb (String.eqb (name ++ "_Data")) ks).
      * reflexivity.
Qed.

(** X17. In the sheet a successful constructor returns, the application
    [name] (a name without a newline) has the section [name_Settings] of the
    document as its settings and the section [name_Data] as its data, and
    lacks the one the document lacks. *)
Theorem init_application_sections (schema : Type) (validate : schema -> M unit)
    (validation : SampleSheetV2.pyobj schema)
    (doc doc' : SectionedSheet) (self : SampleSheetV2.sheet) (name : string) :
  Str.contains_char (ascii_of_nat 10) name = false ->
  SampleSheetV2.__init__ schema validate validation doc = (Ok self, doc') ->
  application_settings name self = lookup (name ++ "_Settings") doc'
  /\ application_data name self = lookup (name ++ "_Data") doc'.
Proof.
  intros Hnl H. apply init_ok_grouping in H.
  apply (group_sections_application name doc' (keys doc') Hnl (fun k Hk => Hk)) in H.
  destruct H as [Hs Hd]. rewrite Hs, Hd.
  unfold application_settings, application_data.
  cbn [SampleSheetV2.new_sheet SampleSheetV2.applications find_application].
  split.
  - destruct (existsb (String.eqb (name ++ "_Settings")) (keys doc')) eqn:E; [reflexivity|].
    symmetry. apply lookup_not_in. now apply existsb_string_false.
  - destruct (existsb (String.eqb (name ++ "_Data")) (keys doc')) eqn:E; [reflexivity|].
    symmetry. apply lookup_not_in. now apply existsb_string_false.
Qed.

Lemma init_application_sections_witness :
  exists self,
    SampleSheetV2.__init__ unit (fun _ => ret tt) (SampleSheetV2.PyList []) six_sections
    = (Ok self, six_sections)
    /\ application_settings "Cloud" self = Some (Settings [("GeneratedVersion", VStr "1.0")])
    /\ application_data "Cloud" self = Some (Data [[("Sample_ID", VStr "s1")]]).
Proof.
  eexists. split; [vm_compute; reflexivity|].
  apply (init_application_sections unit (fun _ => ret tt) (SampleSheetV2.PyList [])
           six_sections six_sections _ "Cloud" eq_refl).
  vm_compute. reflexivity.
Defined.

(** ** Rendering and the validation list *)

Section Rendering.

Variable settings_to_string data_to_string : section -> string.

Lemma application_to_string_append (res : string)
    (entry : SampleSheetV2.appname * SampleSheetV2.application) :
  SampleSheetV2.application_to_string settings_to_string data_to_string res entry
  = res ++ SampleSheetV2.application_to_string settings_to_string data_to_string "" entry.
Proof.
  destruct entry as [name app]. unfold SampleSheetV2.application_to_string.
  destruct (SampleSheetV2.settings app), (SampleSheetV2.data app);
    repeat rewrite append_assoc; rewrite ?append_nil_r; reflexivity.
Qed.

Lemma fold_application_to_string (apps : list (SampleSheetV2.appname * SampleSheetV2.application))
    (res : string) :
  fold_left (SampleSheetV2.application_to_string settings_to_string data_to_string) apps res
  = res ++ fold_left (SampleSheetV2.application_to_string settings_to_string data_to_string)
             apps "".
Proof.
  revert res. induction apps as [|entry apps IH]; intros res; cbn [fold_left].
  - now rewrite append_nil_r.
  - rewrite IH, (IH (SampleSheetV2.application_to_string _ _ "" entry)).
    rewrite (application_to_string_append res). now rewrite append_assoc.
Qed.

(** X18. Rendering goes application by application, in the recorded order:
    the text of a sheet whose applications are [apps1] followed by [apps2] is
    the text of the sheet with [apps1] followed by the text of [apps2]
    alone. *)
Theorem to_string_applications_append
    (apps1 apps2 : list (SampleSheetV2.appname * SampleSheetV2.application))
    (h r : option section) :
  SampleSheetV2.to_string settings_to_string data_to_string
    {| SampleSheetV2.applications := (apps1 ++ apps2)%list;
       SampleSheetV2.header := h; SampleSheetV2.reads := r |}
  = SampleSheetV2.to_string settings_to_string data_to_string
      {| SampleSheetV2.applications := apps1;
         SampleSheetV2.header := h; SampleSheetV2.reads := r |}
    ++ SampleSheetV2.to_string settings_to_string data_to_string
         {| SampleSheetV2.applications := apps2;
            SampleSheetV2.header := None; SampleSheetV2.reads := None |}.
Proof.
  unfold SampleSheetV2.to_string. cbn [SampleSheetV2.applications].
  rewrite fold_left_app.
  match goal with
  | |- fold_left _ apps2 ?x = _ => rewrite (fold_application_to_string apps2 x)
  end.
  f_equal.
Qed.

End Rendering.

Section ValidationList.

Variable schema : Type.
Variable validate : schema -> M unit.

Lemma for_each_checks_only (vs : list (SampleSheetV2.pyobj schema)) (doc : SectionedSheet) :
  for_each vs (SampleSheetV2.run_validator schema validate) doc
  = for_each (filter is_check vs) (SampleSheetV2.run_validator schema validate) doc.
Proof.
  revert doc. induction vs as [|v vs IH]; intros doc; [reflexivity|].
  cbn [filter for_each].
  destruct v; cbn [is_check for_each SampleSheetV2.run_validator];
    unfold bind; cbn [ret]; try apply IH.
  - destruct (validate s doc) as [[e|u] d]; [reflexivity | apply IH].
  - destruct (f doc) as [[e|u] d]; [reflexivity | apply IH].
Qed.

(** X19. The entries of a validation list that are neither a dict nor a
    function (None, a nested list, any other object) are passed over in
    silence: the constructor does the same with and without them. *)
Theorem init_ignores_other_entries
    (vs : list (SampleSheetV2.pyobj schema)) (doc : SectionedSheet) :
  SampleSheetV2.__init__ schema validate (SampleSheetV2.PyList vs) doc
  = SampleSheetV2.__init__ schema validate (SampleSheetV2.PyList (filter is_check vs)) doc.
Proof.
  unfold SampleSheetV2.__init__, SampleSheetV2.run_validation.
  unfold bind at 1 3. now rewrite for_each_checks_only.
Qed.

Lemma readonly_for_each_in {A : Type} (l : list A) (body : A -> M unit) :
  (forall x, In x l -> readonly (body x)) -> readonly (for_each l body).
Proof.
  induction l as [|x l IH]; intros H; cbn [for_each].
  - apply readonly_ret.
  - apply readonly_bind; [apply H; now left|].
    intros _. apply IH. intros y Hy. apply H. now right.
Qed.

(** X20. When every validator of the list only reads the document, so does
    the constructor, whether it returns a sheet or raises; and the sheet it
    returns is the grouping of the document it was given. *)
Theorem init_leaves_document_unchanged
    (vs : list (SampleSheetV2.pyobj schema)) (doc : SectionedSheet) :
  (forall v, In v vs -> readonly (SampleSheetV2.run_validator schema validate v)) ->
  snd (SampleSheetV2.__init__ schema validate (SampleSheetV2.PyList vs) doc) = doc
  /\ forall self,
       fst (SampleSheetV2.__init__ schema validate (SampleSheetV2.PyList vs) doc) = Ok self ->
       SampleSheetV2.group_sections (keys doc) SampleSheetV2.new_sheet doc = (Ok self, doc).
Proof.
  intros Hvs.
  assert (Hro : readonly (for_each vs (SampleSheetV2.run_validator schema validate)))
    by now apply readonly_for_each_in.
  unfold SampleSheetV2.__init__, SampleSheetV2.run_validation.
  rewrite (bind_readonly _ _ doc Hro).
  destruct (fst (for_each vs (SampleSheetV2.run_validator schema validate) doc)) as [e|u].
  - split; [reflexivity | discriminate].
  - cbv beta iota delta [bind doc_keys Ok].
    destruct (group_sections_total (keys doc) doc (fun k Hk => Hk) SampleSheetV2.new_sheet)
      as [s Hs].
    rewrite Hs. split; [reflexivity|].
    intros self [= <-]. reflexivity.
Qed.

End ValidationList.

Lemma init_leaves_document_unchanged_witness :
  snd (SampleSheetV2.__init__ unit (fun _ => ret tt)
         (SampleSheetV2.PyList [SampleSheetV2.PyFunction illuminasamplesheetv2logic;
                                SampleSheetV2.PyFunction basespacelogic])
         six_sections)
  = six_sections.
Proof.
  apply (init_leaves_document_unchanged unit (fun _ => ret tt)
           [SampleSheetV2.PyFunction illuminasamplesheetv2logic;
            SampleSheetV2.PyFunction basespacelogic] six_sections).
  intros v [<-|[<-|[]]]; cbn [SampleSheetV2.run_validator].
  - apply readonly_illuminasamplesheetv2logic.
  - apply readonly_basespacelogic.
Defined.

(** ** The further properties on example documents *)

Lemma override_cycles_sound_witness :
  exists cycles reads,
    parse_overrideCycles "Y3;I2;Y3" = Ok cycles
    /\ lookup "Reads" consistent_cycles = Some (Settings reads)
    /\ forall name elemseq, In (name, elemseq) cycles ->
         lookup name reads = Some (VInt (Z.of_nat (String.length elemseq))).
Proof.
  apply (override_cycles_sound consistent_cycles
           [("OverrideCycles", VStr "Y3;I2;Y3"); ("BarcodeMismatchesIndex1", VInt 1)]
           "Y3;I2;Y3"); reflexivity.
Defined.

Lemma override_cycles_rule_passes_iff_witness :
  override_cycles_rule consistent_cycles = (Ok tt, consistent_cycles) <->
  exists cycles reads,
    parse_overrideCycles "Y3;I2;Y3" = Ok cycles
    /\ lookup "Reads" consistent_cycles = Some (Settings reads)
    /\ forall name elemseq, In (name, elemseq) cycles ->
         lookup name reads = Some (VInt (Z.of_nat (String.length elemseq))).
Proof.
  apply (override_cycles_rule_passes_iff consistent_cycles
           [("OverrideCycles", VStr "Y3;I2;Y3"); ("BarcodeMismatchesIndex1", VInt 1)]
           "Y3;I2;Y3"); try reflexivity.
  intros name Hname Hin. simpl in Hname, Hin.
  repeat match goal with
         | H : _ \/ _ |- _ => destruct H as [H|H]
         | H : False |- _ => contradiction
         end; subst; discriminate.
Defined.

Lemma adapter_read2_rule_outcomes_witness :
  adapter_read2_rule adapter2_single_read
  = (Err (Exception "AdapterRead2 defined in BCLConvert_Settings, but no Read2Cycles entry in Reads"),
     adapter2_single_read).
Proof.
  apply (proj1 (adapter_read2_rule_outcomes adapter2_single_read
                  [("AdapterRead2", VStr "ACGT")] [("Read1Cycles", VInt 151)] "ACGT"
                  eq_refl eq_refl eq_refl)).
  reflexivity.
Defined.

Lemma barcode_mismatches_sound_witness :
  exists reads, lookup "Reads" consistent_cycles = Some (Settings reads)
                /\ has_key "Index1Cycles" reads = true.
Proof.
  apply (barcode_mismatches_sound consistent_cycles
           [("OverrideCycles", VStr "Y3;I2;Y3"); ("BarcodeMismatchesIndex1", VInt 1)] "1");
    [now left | reflexivity | reflexivity | reflexivity].
Defined.

Lemma logic_passes_without_bclconvert_witness :
  illuminasamplesheetv2logic Examples.header_and_reads = (Ok tt, Examples.header_and_reads).
Proof.
  apply (logic_passes_without_bclconvert Examples.header_and_reads eq_refl).
  left. reflexivity.
Defined.

Lemma data_rules_missing_index_witness :
  bclconvert_data_rules first_row_without_index
  = (Err (Exception "No Index found in BCLConvert_Data, although it contains more than one sample"),
     first_row_without_index).
Proof.
  apply (proj1 (data_rules_missing_index first_row_without_index _ _ _ eq_refl)).
  reflexivity.
Defined.

Lemma data_rules_only_indices_witness :
  fst (bclconvert_data_rules same_index_two_lanes)
  = fst (bclconvert_data_rules same_index_bare).
Proof.
  apply (data_rules_only_indices same_index_two_lanes same_index_bare _ _ eq_refl eq_refl).
  repeat constructor.
Defined.

Lemma basespacelogic_first_missing_witness :
  basespacelogic two_unknown_samples
  = (Err (Exception "Sample_ID s2 is defined in the BCLConvert_Data section, but not in the Cloud_Data section."),
     two_unknown_samples).
Proof.
  apply (basespacelogic_first_missing two_unknown_samples _ _
           [VStr "s1"] [VStr "s1"] [VStr "s3"] (VStr "s2") eq_refl eq_refl).
  - repeat constructor.
  - repeat constructor.
  - intros x [<-|[]]. now left.
  - intros [H|[]]. discriminate H.
Defined.

Lemma basespacelogic_missing_sample_id_witness :
  basespacelogic cloud_row_without_id = (Err (KeyError "Sample_ID"), cloud_row_without_id).
Proof.
  apply (basespacelogic_missing_sample_id cloud_row_without_id _ _ eq_refl eq_refl).
  exists [("ProjectName", VStr "p")]. split; [|reflexivity].
  right. left. reflexivity.
Defined.
